(** * NFC reader: identity resolver and detection loop

    A shallow embedding of [client/src/nfc_reader.py] (class [NFCReader])
    and the proofs of its specification.

    - Python [bytes] are lists of [Byte.byte], [str] is [string].
    - A call that may raise yields an [outcome]; code between [try] and
      [except Exception] is wrapped in [try_except].
    - The fields of [self], the consumer of the callbacks, the polling
      threads and the observable trace form the [World]; methods are
      computations of the state-and-exception monad [M].
    - The nfcpy driver is an interface ([Driver]): what it answers is
      a parameter of every step. *)

From Stdlib Require Import List String Ascii Strings.Byte NArith Bool Arith Lia.
Import ListNotations.
Open Scope string_scope.

Set Implicit Arguments.

(** ** Bytes and strings as Python has them *)

Definition bytes := list byte.

(** One lowercase hexadecimal digit, for a value below 16. *)
Definition hex_digit (n : N) : ascii :=
  if (n <? 10)%N then ascii_of_N (48 + n) else ascii_of_N (87 + n).

Definition hex_byte (b : byte) : string :=
  let n := Byte.to_N b in
  String (hex_digit (n / 16)) (String (hex_digit (n mod 16)) "").

(** [bytes.hex()]: two lowercase digits per byte. *)
Fixpoint hex (bs : bytes) : string :=
  match bs with
  | [] => ""
  | b :: rest => hex_byte b ++ hex rest
  end.

Definition upper_ascii (c : ascii) : ascii :=
  let n := N_of_ascii c in
  if ((97 <=? n) && (n <=? 122))%N then ascii_of_N (n - 32) else c.

(** [str.upper()] on ASCII text. *)
Fixpoint upper (s : string) : string :=
  match s with
  | EmptyString => EmptyString
  | String c rest => String (upper_ascii c) (upper rest)
  end.

Definition hex_value (c : ascii) : option N :=
  let n := N_of_ascii c in
  if ((48 <=? n) && (n <=? 57))%N then Some (n - 48)%N
  else if ((97 <=? n) && (n <=? 102))%N then Some (n - 87)%N
  else if ((65 <=? n) && (n <=? 70))%N then Some (n - 55)%N
  else None.

(** The alphabet of uppercase hexadecimal text. *)
Definition is_upper_hex_digit (c : ascii) : bool :=
  let n := N_of_ascii c in
  (((48 <=? n) && (n <=? 57)) || ((65 <=? n) && (n <=? 70)))%N.

Fixpoint uppercase_hex (s : string) : bool :=
  match s with
  | EmptyString => true
  | String c rest => is_upper_hex_digit c && uppercase_hex rest
  end.

(** Exceptions: instances of subclasses of Python's [Exception], the
    only ones a driver call, a callback or a library function raises
    here.  [exn_msg] is what [f"{e}"] prints. *)
Record exn := mkExn { exn_class : string; exn_msg : string }.

Inductive outcome (A : Type) : Type :=
| Returns (a : A)
| Raises (e : exn).
Arguments Returns {A} a.
Arguments Raises {A} e.

(** [bytes.fromhex(s)] for a string of hexadecimal digit pairs. *)
Fixpoint fromhex (s : string) : outcome bytes :=
  match s with
  | EmptyString => Returns []
  | String c1 (String c2 rest) =>
      match hex_value c1, hex_value c2 with
      | Some h, Some l =>
          match Byte.of_N (16 * h + l), fromhex rest with
          | Some b, Returns bs => Returns (b :: bs)
          | _, Raises e => Raises e
          | None, _ => Raises (mkExn "ValueError" "non-hexadecimal number found in fromhex() arg")
          end
      | _, _ => Raises (mkExn "ValueError" "non-hexadecimal number found in fromhex() arg")
      end
  | String _ EmptyString =>
      Raises (mkExn "ValueError" "non-hexadecimal number found in fromhex() arg")
  end.

Definition bytes_eqb (a b : bytes) : bool :=
  if list_eq_dec Byte.byte_eq_dec a b then true else false.

(** [b.endswith(suffix)]. *)
Definition endswith (b suffix : bytes) : bool :=
  Nat.leb (List.length suffix) (List.length b) &&
  bytes_eqb (skipn (List.length b - List.length suffix) b) suffix.

(** The slice [b[:-k]]: all but the last [k] bytes, empty when [b] has
    no more than [k]. *)
Definition drop_last (k : nat) (b : bytes) : bytes :=
  firstn (List.length b - k) b.

(** Truth value of a [bytes] or [str] object: non-empty. *)
Definition truthy_bytes (b : bytes) : bool :=
  match b with [] => false | _ => true end.

Definition truthy_str (s : string) : bool :=
  match s with EmptyString => false | _ => true end.

(** ** The state-and-exception monad *)

Definition M (S A : Type) : Type := S -> S * outcome A.

Definition ret {S A} (a : A) : M S A := fun s => (s, Returns a).

Definition bind {S A B} (m : M S A) (k : A -> M S B) : M S B :=
  fun s =>
    match m s with
    | (s', Returns a) => k a s'
    | (s', Raises e) => (s', Raises e)
    end.

Definition raise {S A} (e : exn) : M S A := fun s => (s, Raises e).

(** The result of a call into the driver or the consumer. *)
Definition call {S A} (o : outcome A) : M S A := fun s => (s, o).

(** [try: body  except Exception as e: handler e]. *)
Definition try_except {S A} (body : M S A) (handler : exn -> M S A) : M S A :=
  fun s =>
    match body s with
    | (s', Returns a) => (s', Returns a)
    | (s', Raises e) => handler e s'
    end.

Definition get {S} : M S S := fun s => (s, Returns s).
Definition modify {S} (f : S -> S) : M S unit := fun s => (f s, Returns tt).

(** Run a computation on a part of the state. *)
Definition zoom {S T A} (proj : S -> T) (upd : S -> T -> S) (m : M T A) : M S A :=
  fun s => let (t, r) := m (proj s) in (upd s t, r).

Declare Scope py_scope.
Delimit Scope py_scope with py.
Notation "x <- m ;; k" := (bind m (fun x => k))
  (at level 61, m at next level, right associativity) : py_scope.
Notation "m ;; k" := (bind m (fun _ => k))
  (at level 61, right associativity) : py_scope.
Open Scope py_scope.

(** ** The driver and the trace *)

(** A handle to an open [nfc.ContactlessFrontend]. *)
Definition Clf := nat.

(** A sensed 106A target.  [sdd_res] is its anti-collision response;
    the attribute is [None] on a target that was sensed without one (a
    Type 1 tag answers with [rid_res] instead). *)
Record Target := mkTarget { sdd_res : option bytes }.

(** An activated tag: its advertised type and what it answers to a
    command. *)
Record Tag := mkTag {
  type : string;
  transceive : bytes -> outcome bytes
}.

(** What the reader hardware and nfcpy answer during one step:
    [nfc.ContactlessFrontend(port)], [clf.sense(RemoteTarget("106A"),
    timeout=1.0)] and [nfc.tag.activate(clf, target)] (which may give
    [None]).  [clf.close()] has no result and does not raise. *)
Record Driver := mkDriver {
  ContactlessFrontend : string -> outcome Clf;
  sense : Clf -> outcome (option Target);
  activate : option Clf -> Target -> outcome (option Tag)
}.

Inductive Level := DEBUG | INFO | ERROR.

(** What a run does that can be observed from outside. *)
Inductive Event :=
| Opening (port : string)
| Closed (h : Clf)
| Sensed (h : Clf)
| Activated (t : Target)
| Transceived (cmd : bytes)
| Logged (lvl : Level) (msg : string)
| Arrival (uid : string)
| Removal.

Definition Trace := list Event.

Definition emit (ev : Event) : M Trace unit :=
  fun t => ((t ++ [ev])%list, Returns tt).

Definition logger (lvl : Level) (msg : string) : M Trace unit :=
  emit (Logged lvl msg).

(** The commands sent to a tag, the arrival callbacks and the removal
    callbacks of a trace, in order. *)
Fixpoint transmissions (t : Trace) : list bytes :=
  match t with
  | [] => []
  | Transceived cmd :: rest => cmd :: transmissions rest
  | _ :: rest => transmissions rest
  end.

Fixpoint arrivals (t : Trace) : list string :=
  match t with
  | [] => []
  | Arrival uid :: rest => uid :: arrivals rest
  | _ :: rest => arrivals rest
  end.

Fixpoint removals (t : Trace) : nat :=
  match t with
  | [] => 0
  | Removal :: rest => S (removals rest)
  | _ :: rest => removals rest
  end.

Fixpoint opens (t : Trace) : nat :=
  match t with
  | [] => 0
  | Opening _ :: rest => S (opens rest)
  | _ :: rest => opens rest
  end.

(** ** [_extract_uid] *)

(** The two hexadecimal literals of the source: the status word of a
    successful response and the command that selects the application
    F0000000010001. *)
Definition STATUS_OK : string := "9000".
Definition SELECT_AID : string := "00A4040007F000000001000100".

(** [target.sdd_res.hex().upper()]: on [None] the attribute access
    raises. *)
Definition hardware_uid (target : Target) : outcome string :=
  match sdd_res target with
  | Some b => Returns (upper (hex b))
  | None =>
      Raises (mkExn "AttributeError" "'NoneType' object has no attribute 'hex'")
  end.

(** [_extract_uid(self, target)].  Of [self] it reads [self.clf] only.
    The hardware identifier is computed before the first [try].  The
    two nested [try] blocks yield [Some uid] where the source returns
    from inside them and [None] where it leaves them. *)
Definition _extract_uid (drv : Driver) (self_clf : option Clf) (target : Target)
  : M Trace string :=
  hw_uid <- call (hardware_uid target) ;;
  found <-
    try_except
      (emit (Activated target) ;;
       tag <- call (activate drv self_clf target) ;;
       match tag with
       | Some tag =>
           if String.eqb (type tag) "Type4Tag" then
             select_aid_apdu <- call (fromhex SELECT_AID) ;;
             try_except
               (emit (Transceived select_aid_apdu) ;;
                response <- call (transceive tag select_aid_apdu) ;;
                success <-
                  (if truthy_bytes response then
                     status <- call (fromhex STATUS_OK) ;;
                     ret (endswith response status)
                   else ret false) ;;
                if success then
                  let custom_uid := upper (hex (drop_last 2 response)) in
                  logger INFO ("Android App found! Custom UID: " ++ custom_uid) ;;
                  ret (Some custom_uid)
                else ret None)
               (fun _ => ret None)
           else ret None
       | None => ret None
       end)
      (fun e => logger DEBUG ("HCE check skipped: " ++ exn_msg e) ;; ret None) ;;
  match found with
  | Some custom_uid => ret custom_uid
  | None => ret hw_uid
  end.

(** The resolver adds to the trace and looks at nothing before it. *)
Definition resolved (drv : Driver) (self_clf : option Clf) (target : Target)
  : outcome string :=
  snd (_extract_uid drv self_clf target []).

Definition resolver_events (drv : Driver) (self_clf : option Clf) (target : Target)
  : Trace :=
  fst (_extract_uid drv self_clf target []).

(** ** The reader object, its threads and its consumer *)

(** Where a thread running [_reader_loop] stands: before [connect], in
    the [while] loop (between two iterations), or returned. *)
Inductive Phase := AtEntry | InLoop | Exited.

Fixpoint set_nth {A} (n : nat) (a : A) (l : list A) : list A :=
  match l, n with
  | [], _ => []
  | _ :: rest, O => a :: rest
  | x :: rest, S n' => x :: set_nth n' a rest
  end.

Section Reader.

(** The state of whoever receives the callbacks. *)
Variable C : Type.

Record NFCReader := mkNFCReader {
  port : string;
  card_callback : option (string -> M C unit);
  card_removed_callback : option (M C unit);
  clf : option Clf;
  running : bool;
  reader_thread : option nat;
  current_uid : option string
}.

Definition __init__ (port : string)
    (card_callback : option (string -> M C unit))
    (card_removed_callback : option (M C unit)) : NFCReader :=
  {| port := port;
     card_callback := card_callback;
     card_removed_callback := card_removed_callback;
     clf := None;
     running := false;
     reader_thread := None;
     current_uid := None |}.

Definition set_clf (v : option Clf) (r : NFCReader) : NFCReader :=
  mkNFCReader (port r) (card_callback r) (card_removed_callback r)
    v (running r) (reader_thread r) (current_uid r).

Definition set_running (v : bool) (r : NFCReader) : NFCReader :=
  mkNFCReader (port r) (card_callback r) (card_removed_callback r)
    (clf r) v (reader_thread r) (current_uid r).

Definition set_reader_thread (v : option nat) (r : NFCReader) : NFCReader :=
  mkNFCReader (port r) (card_callback r) (card_removed_callback r)
    (clf r) (running r) v (current_uid r).

Definition set_current_uid (v : option string) (r : NFCReader) : NFCReader :=
  mkNFCReader (port r) (card_callback r) (card_removed_callback r)
    (clf r) (running r) (reader_thread r) v.

(** [nfc] tells whether [import nfc] succeeded; [threads] holds every
    thread [start] has created, [reader_thread] indexing the latest. *)
Record World := mkWorld {
  nfc : bool;
  self : NFCReader;
  consumer : C;
  threads : list Phase;
  trace : Trace
}.

Definition on_self {A} : M NFCReader A -> M World A :=
  zoom self (fun w r => mkWorld (nfc w) r (consumer w) (threads w) (trace w)).

Definition on_consumer {A} : M C A -> M World A :=
  zoom consumer (fun w c => mkWorld (nfc w) (self w) c (threads w) (trace w)).

Definition on_trace {A} : M Trace A -> M World A :=
  zoom trace (fun w t => mkWorld (nfc w) (self w) (consumer w) (threads w) t).

Definition set_phase (t : nat) (p : Phase) (w : World) : World :=
  mkWorld (nfc w) (self w) (consumer w) (set_nth t p (threads w)) (trace w).

(** [threading.Thread(target=self._reader_loop, daemon=True)] followed
    by its [start()]: a new thread at the entry of [_reader_loop]. *)
Definition Thread_start : M World nat :=
  fun w =>
    (mkWorld (nfc w) (self w) (consumer w) (threads w ++ [AtEntry])%list (trace w),
     Returns (List.length (threads w))).

(** ** [connect], [disconnect], [is_connected] *)

Definition connect (drv : Driver) : M World bool :=
  w <- get ;;
  if negb (nfc w) then
    on_trace (logger ERROR "nfcpy library not installed. Install with: pip install nfcpy") ;;
    ret false
  else
    try_except
      (on_trace (emit (Opening (port (self w)))) ;;
       h <- call (ContactlessFrontend drv (port (self w))) ;;
       on_self (modify (set_clf (Some h))) ;;
       on_trace (logger INFO ("Connected to NFC reader on " ++ port (self w))) ;;
       ret true)
      (fun e =>
         on_trace (logger ERROR ("Failed to connect to NFC reader: " ++ exn_msg e)) ;;
         ret false).

Definition disconnect : M World unit :=
  w <- get ;;
  match clf (self w) with
  | Some h =>
      on_trace (emit (Closed h)) ;;
      on_self (modify (set_clf None)) ;;
      on_trace (logger INFO "Disconnected from NFC reader")
  | None => ret tt
  end.

Definition is_connected (w : World) : bool :=
  running (self w) && match clf (self w) with Some _ => true | None => false end.

(** ** One iteration of the [while self.running] loop *)

(** [self.clf.sense(...)]; on a null handle the attribute access
    raises. *)
Definition clf_sense (drv : Driver) : M World (option Target) :=
  w <- get ;;
  match clf (self w) with
  | Some h => on_trace (emit (Sensed h)) ;; call (sense drv h)
  | None => raise (mkExn "AttributeError" "'NoneType' object has no attribute 'sense'")
  end.

Definition uid_eqb (a b : option string) : bool :=
  match a, b with
  | Some x, Some y => String.eqb x y
  | None, None => true
  | _, _ => false
  end.

(** The body of the loop of [_reader_loop]: the [try] block and its
    handler. *)
Definition _reader_loop_body (drv : Driver) : M World unit :=
  try_except
    (target <- clf_sense drv ;;
     match target with
     | Some target =>
         w <- get ;;
         uid <- on_trace (_extract_uid drv (clf (self w)) target) ;;
         w <- get ;;
         if truthy_str uid && negb (uid_eqb (Some uid) (current_uid (self w))) then
           on_self (modify (set_current_uid (Some uid))) ;;
           match card_callback (self w) with
           | Some cb => on_trace (emit (Arrival uid)) ;; on_consumer (cb uid)
           | None => ret tt
           end ;;
           on_trace (logger INFO ("Card detected: " ++ uid))
         else ret tt
     | None =>
         w <- get ;;
         match current_uid (self w) with
         | Some cur =>
             on_trace (logger INFO ("Card removed: " ++ cur)) ;;
             match card_removed_callback (self w) with
             | Some cb => on_trace (emit Removal) ;; on_consumer cb
             | None => ret tt
             end ;;
             on_self (modify (set_current_uid None))
         | None => ret tt
         end
     end)
    (fun e => on_trace (logger ERROR ("Error reading from NFC reader: " ++ exn_msg e))).

(** ** [_reader_loop] as a thread *)

(** One scheduling step of thread [t], the driver answering [drv]:
    at entry, [connect] and return if it fails; in the loop, test
    [self.running] and run the body once or leave the loop.  An
    exception leaving the body would end the thread.  A step is taken
    as a unit.  The code can also switch threads inside an iteration;
    that shows only when several threads are alive, since [start] and
    [stop] write nothing an iteration writes, so what is proved about
    the calls of whole histories is stated for histories with one
    live thread ([single_threaded]). *)
Definition _reader_loop_step (t : nat) (drv : Driver) (w : World) : World :=
  match nth_error (threads w) t with
  | Some AtEntry =>
      match connect drv w with
      | (w', Returns true) => set_phase t InLoop w'
      | (w', _) => set_phase t Exited w'
      end
  | Some InLoop =>
      if running (self w) then
        match _reader_loop_body drv w with
        | (w', Returns _) => w'
        | (w', Raises _) => set_phase t Exited w'
        end
      else set_phase t Exited w
  | _ => w
  end.

(** Thread [t] scheduled once for each driver answer of [drvs]. *)
Definition polling (t : nat) (drvs : list Driver) (w : World) : World :=
  fold_left (fun w drv => _reader_loop_step t drv w) drvs w.

(** Any threads scheduled in any order. *)
Definition schedule (steps : list (nat * Driver)) (w : World) : World :=
  fold_left (fun w step => _reader_loop_step (fst step) (snd step) w) steps w.

(** ** [start] and [stop] *)

Definition start : M World unit :=
  w <- get ;;
  if negb (running (self w)) then
    on_self (modify (set_running true)) ;;
    t <- Thread_start ;;
    on_self (modify (set_reader_thread (Some t))) ;;
    on_trace (logger INFO "NFC reader thread started")
  else ret tt.

(** [self.reader_thread.join(timeout=2)]: the caller waits while the
    threads take the steps [during_join], until the thread has returned
    or two seconds have passed. *)
Definition Thread_join (during_join : list (nat * Driver)) : M World unit :=
  fun w => (schedule during_join w, Returns tt).

Definition stop (during_join : list (nat * Driver)) : M World unit :=
  on_self (modify (set_running false)) ;;
  w <- get ;;
  match reader_thread (self w) with
  | Some _ => Thread_join during_join
  | None => ret tt
  end ;;
  disconnect ;;
  on_trace (logger INFO "NFC reader stopped").

(** The sensed identity of an iteration with handle [h]: what the
    resolver returns for the target the driver senses, if any. *)
Definition sensed_identity (drv : Driver) (h : Clf) : option string :=
  match sense drv h with
  | Returns (Some target) =>
      match resolved drv (Some h) target with
      | Returns uid => Some uid
      | Raises _ => None
      end
  | _ => None
  end.

Definition senses_nothing (drv : Driver) (h : Clf) : bool :=
  match sense drv h with
  | Returns None => true
  | _ => false
  end.

(** Opening the connection fails: nfcpy is missing or the constructor
    raises. *)
Definition open_fails (drv : Driver) (w : World) : bool :=
  negb (nfc w) ||
  match ContactlessFrontend drv (port (self w)) with
  | Raises _ => true
  | Returns _ => false
  end.

(** What no thread step changes: the configuration of the reader, the
    running flag (only [start] and [stop] write it) and the number of
    threads. *)
Definition same_config (w w' : World) : Prop :=
  nfc w' = nfc w /\
  port (self w') = port (self w) /\
  card_callback (self w') = card_callback (self w) /\
  card_removed_callback (self w') = card_removed_callback (self w) /\
  running (self w') = running (self w) /\
  reader_thread (self w') = reader_thread (self w) /\
  List.length (threads w') = List.length (threads w).

(** The world inside [stop] when the wait for the thread is over and
    [disconnect] is about to run. *)
Definition joined (during_join : list (nat * Driver)) (w : World) : World :=
  let w1 :=
    mkWorld (nfc w) (set_running false (self w)) (consumer w) (threads w) (trace w) in
  match reader_thread (self w) with
  | Some _ => schedule during_join w1
  | None => w1
  end.

(** A world with more events on its trace and nothing else changed. *)
Definition add_events (evs : Trace) (w : World) : World :=
  mkWorld (nfc w) (self w) (consumer w) (threads w) (trace w ++ evs)%list.

End Reader.

Arguments connect {C} drv _.
Arguments disconnect {C} _.
Arguments start {C} _.
Arguments stop {C} during_join _.
Arguments Thread_start {C} _.
Arguments Thread_join {C} during_join _.
Arguments clf_sense {C} drv _.
Arguments _reader_loop_body {C} drv _.
Arguments __init__ {C} port card_callback card_removed_callback.
Arguments _extract_uid : simpl never.

(** The select command and the status word, byte by byte. *)
Definition select_aid_apdu : bytes :=
  [x00; xa4; x04; x00; x07; xf0; x00; x00; x00; x01; x00; x01; x00].

Definition status_ok : bytes := [x90; x00].

(** When the resolver falls back: activation raises, the type check
    fails (no tag, or another type), the transmission raises, or the
    response does not end with the status word. *)
Inductive falls_back (drv : Driver) (c : option Clf) (target : Target) : Prop :=
| activation_raises e :
    activate drv c target = Raises e -> falls_back drv c target
| activation_none :
    activate drv c target = Returns None -> falls_back drv c target
| other_type tag :
    activate drv c target = Returns (Some tag) ->
    type tag <> "Type4Tag" -> falls_back drv c target
| transceive_raises tag e :
    activate drv c target = Returns (Some tag) ->
    type tag = "Type4Tag" ->
    transceive tag select_aid_apdu = Raises e -> falls_back drv c target
| status_fails tag response :
    activate drv c target = Returns (Some tag) ->
    type tag = "Type4Tag" ->
    transceive tag select_aid_apdu = Returns response ->
    endswith response status_ok = false -> falls_back drv c target.

(** The events of an iteration that senses [target] before the
    identity is compared. *)
Definition sensing (drv : Driver) (h : Clf) (target : Target) : Trace :=
  Sensed h :: resolver_events drv (Some h) target.

(** ** Sample tokens, drivers, consumers and worlds *)

Module Sample.

Definition reader : Clf := 7.

(** A Mifare Classic card with hardware identifier 04A1B2C3, a phone
    with a random one. *)
Definition card : Target := mkTarget (Some [x04; xa1; xb2; xc3]).
Definition handset : Target := mkTarget (Some [x08; x5e; x11; x3a]).

Definition app (response : outcome bytes) : Tag :=
  mkTag "Type4Tag" (fun _ => response).

(** The answer of the application: its identifier AABBCCDD, then the
    status word. *)
Definition answer : bytes := [xaa; xbb; xcc; xdd; x90; x00].

(** The card is in the field; it does not activate. *)
Definition card_present : Driver :=
  mkDriver (fun _ => Returns reader)
           (fun _ => Returns (Some card))
           (fun _ _ => Raises (mkExn "TagCommandError" "unsupported operation")).

(** A phone is in the field and answers the select command with
    [response]. *)
Definition phone_present (response : outcome bytes) : Driver :=
  mkDriver (fun _ => Returns reader)
           (fun _ => Returns (Some handset))
           (fun _ _ => Returns (Some (app response))).

Definition field_empty : Driver :=
  mkDriver (fun _ => Returns reader)
           (fun _ => Returns None)
           (fun _ _ => Returns None).


(** A consumer that counts the calls it receives, and one whose
    handlers fail. *)
Definition on_card : string -> M nat unit := fun _ n => (S n, Returns tt).
Definition on_removed : M nat unit := fun n => (S n, Returns tt).

Definition on_card_failing : string -> M nat unit :=
  fun _ n => (n, Raises (mkExn "ConnectionError" "server unreachable")).
Definition on_removed_failing : M nat unit :=
  fun n => (n, Raises (mkExn "ConnectionError" "server unreachable")).

(** A reader just constructed, nfcpy installed. *)
Definition fresh : World nat :=
  mkWorld true (__init__ "usb" (Some on_card) (Some on_removed)) 0 [] [].

(** A reader whose thread 0 is in the loop, holding [cur]. *)
Definition in_loop (cb : option (string -> M nat unit)) (rcb : option (M nat unit))
    (cur : option string) : World nat :=
  mkWorld true (mkNFCReader "usb" cb rcb (Some reader) true (Some 0) cur)
    0 [InLoop] [].

(** A second card, and a reader whose [sense] fails. *)
Definition other_card : Target := mkTarget (Some [x04; x5f; x6e; x7d]).

Definition other_card_present : Driver :=
  mkDriver (fun _ => Returns reader)
           (fun _ => Returns (Some other_card))
           (fun _ _ => Raises (mkExn "TagCommandError" "unsupported operation")).

(** A Type 1 tag: sensed, but without an anti-collision response. *)
Definition topaz : Target := mkTarget None.

Definition topaz_present : Driver :=
  mkDriver (fun _ => Returns reader)
           (fun _ => Returns (Some topaz))
           (fun _ _ => Returns None).

Definition field_error : Driver :=
  mkDriver (fun _ => Returns reader)
           (fun _ => Raises (mkExn "OSError" "[Errno 5] Input/output error"))
           (fun _ _ => Returns None).

End Sample.

(** ** Histories of callbacks and of calls to the reader *)

(** The calls a consumer receives. *)
Inductive Call := Arrived (uid : string) | Removed.

Fixpoint calls (t : Trace) : list Call :=
  match t with
  | [] => []
  | Arrival uid :: rest => Arrived uid :: calls rest
  | Removal :: rest => Removed :: calls rest
  | _ :: rest => calls rest
  end.

(** Whether call [c] reports an edge when it comes right after
    [prev]: a removal needs an arrival right before it, an arrival
    differs from an arrival right before it. *)
Definition may_follow (prev : option Call) (c : Call) : bool :=
  match c, prev with
  | Removed, Some (Arrived _) => true
  | Removed, _ => false
  | Arrived u, Some (Arrived v) => negb (String.eqb u v)
  | Arrived _, _ => true
  end.

Fixpoint alternating (prev : option Call) (cs : list Call) : bool :=
  match cs with
  | [] => true
  | c :: rest => may_follow prev c && alternating (Some c) rest
  end.

Definition edge_triggered (cs : list Call) : bool := alternating None cs.

Fixpoint last_call (prev : option Call) (cs : list Call) : option Call :=
  match cs with
  | [] => prev
  | c :: rest => last_call (Some c) rest
  end.

(** What happens to a reader: its owner calls [start] or [stop], or a
    thread is scheduled for a step. *)
Inductive Action :=
| Start
| Stop (during_join : list (nat * Driver))
| Step (t : nat) (drv : Driver).

Section Histories.

Variable C : Type.

Definition perform (a : Action) (w : World C) : World C :=
  match a with
  | Start => fst (start w)
  | Stop during_join => fst (stop during_join w)
  | Step t drv => _reader_loop_step t drv w
  end.

Definition history (acts : list Action) (w : World C) : World C :=
  fold_left (fun w a => perform a w) acts w.

(** A thread that has not returned. *)
Definition live (p : Phase) : bool :=
  match p with
  | Exited => false
  | _ => true
  end.

Definition one_live (w : World C) : bool :=
  Nat.leb (List.length (filter live (threads w))) 1.

(** A history in which at most one polling thread is alive after each
    action: [start] is not called again before the thread of the run
    before has returned. *)
Fixpoint single_threaded (acts : list Action) (w : World C) : bool :=
  match acts with
  | [] => true
  | a :: rest => one_live (perform a w) && single_threaded rest (perform a w)
  end.

(** The world right after [NFCReader(port, card_callback,
    card_removed_callback)]. *)
Definition constructed (nfc : bool) (port : string)
    (card_callback : option (string -> M C unit))
    (card_removed_callback : option (M C unit)) (c : C) : World C :=
  mkWorld nfc (__init__ port card_callback card_removed_callback) c [] [].

(** What a step from [w] to [w'] that adds [evs] to the trace does to
    the session: nothing; record a new identity (and report it, with a
    callback registered); or handle the loss of the identity held. *)
Inductive effect (w w' : World C) (evs : Trace) : Prop :=
| quiet :
    calls evs = [] ->
    current_uid (self w') = current_uid (self w) ->
    consumer w' = consumer w ->
    effect w w' evs
| arrived uid bs :
    uid <> "" ->
    uid = upper (hex bs) ->
    current_uid (self w) <> Some uid ->
    current_uid (self w') = Some uid ->
    calls evs = match card_callback (self w) with
                | Some _ => [Arrived uid]
                | None => []
                end ->
    effect w w' evs
| removed cur :
    current_uid (self w) = Some cur ->
    match card_removed_callback (self w) with
    | None => calls evs = [] /\ current_uid (self w') = None
    | Some cb =>
        calls evs = [Removed] /\
        match snd (cb (consumer w)) with
        | Returns _ => current_uid (self w') = None
        | Raises _ => current_uid (self w') = Some cur
        end
    end ->
    effect w w' evs.

(** An identity as the resolver makes them: non-empty hexadecimal
    text. *)
Definition well_formed_identity (uid : string) : Prop :=
  uid <> "" /\ exists bs, uid = upper (hex bs).

Definition identities_well_formed (w : World C) : Prop :=
  (forall uid, In (Arrived uid) (calls (trace w)) -> well_formed_identity uid) /\
  (forall uid, current_uid (self w) = Some uid -> well_formed_identity uid).

(** With both callbacks registered, the calls made so far report edges
    only, and the last of them tells what the reader holds. *)
Definition edges_only (cb : string -> M C unit) (rcb : M C unit) (w : World C)
  : Prop :=
  card_callback (self w) = Some cb /\
  card_removed_callback (self w) = Some rcb /\
  alternating None (calls (trace w)) = true /\
  match current_uid (self w) with
  | Some uid => last_call None (calls (trace w)) = Some (Arrived uid)
  | None => forall uid, last_call None (calls (trace w)) <> Some (Arrived uid)
  end.

End Histories.

Arguments constructed {C} nfc port card_callback card_removed_callback c.

(** ** Bytes *)

Lemma fromhex_SELECT_AID : fromhex SELECT_AID = Returns select_aid_apdu.
Proof. reflexivity. Qed.

Lemma fromhex_STATUS_OK : fromhex STATUS_OK = Returns status_ok.
Proof. reflexivity. Qed.

Lemma bytes_eqb_eq (a b : bytes) : bytes_eqb a b = true <-> a = b.
Proof.
  unfold bytes_eqb. destruct (list_eq_dec byte_eq_dec a b); split; congruence.
Qed.

Lemma endswith_split (b suffix : bytes) :
  endswith b suffix = true ->
  b = (drop_last (List.length suffix) b ++ suffix)%list.
Proof.
  unfold endswith, drop_last. intros H.
  apply andb_prop in H. destruct H as [_ H].
  apply bytes_eqb_eq in H.
  rewrite <- (firstn_skipn (List.length b - List.length suffix) b) at 1.
  f_equal. exact H.
Qed.

Lemma endswith_app (body suffix : bytes) :
  endswith (body ++ suffix)%list suffix = true.
Proof.
  unfold endswith. rewrite length_app. apply andb_true_intro. split.
  - apply Nat.leb_le. lia.
  - apply bytes_eqb_eq.
    replace (List.length body + List.length suffix - List.length suffix)
      with (List.length body + 0) by lia.
    rewrite skipn_app, Nat.add_0_r, skipn_all.
    replace (List.length body - List.length body) with 0 by lia.
    reflexivity.
Qed.

Lemma drop_last_app (body suffix : bytes) :
  drop_last (List.length suffix) (body ++ suffix)%list = body.
Proof.
  unfold drop_last. rewrite length_app.
  replace (List.length body + List.length suffix - List.length suffix)
    with (List.length body + 0) by lia.
  rewrite firstn_app_2. simpl. apply app_nil_r.
Qed.

Lemma endswith_status_truthy (b : bytes) :
  endswith b status_ok = true -> truthy_bytes b = true.
Proof.
  destruct b as [|x b]; [discriminate | reflexivity].
Qed.

(** The first byte of [bs.hex().upper()] is two uppercase digits that
    [fromhex] reads back. *)
Lemma upper_hex_cons b bs :
  exists c1 c2,
    upper (hex (b :: bs)) = String c1 (String c2 (upper (hex bs))) /\
    is_upper_hex_digit c1 = true /\ is_upper_hex_digit c2 = true /\
    forall rest,
      fromhex (String c1 (String c2 rest)) =
      match fromhex rest with
      | Returns tl => Returns (b :: tl)
      | Raises e => Raises e
      end.
Proof.
  destruct b; do 2 eexists; (split; [reflexivity|]); repeat split.
Qed.

Lemma fromhex_upper_hex bs : fromhex (upper (hex bs)) = Returns bs.
Proof.
  induction bs as [|b bs IH]; [reflexivity|].
  destruct (upper_hex_cons b bs) as (c1 & c2 & -> & _ & _ & Hdec).
  now rewrite Hdec, IH.
Qed.

Lemma upper_hex_uppercase bs : uppercase_hex (upper (hex bs)) = true.
Proof.
  induction bs as [|b bs IH]; [reflexivity|].
  destruct (upper_hex_cons b bs) as (c1 & c2 & -> & H1 & H2 & _).
  simpl. now rewrite H1, H2, IH.
Qed.

(** ** Traces *)

Lemma transmissions_app (a b : Trace) :
  transmissions (a ++ b)%list = (transmissions a ++ transmissions b)%list.
Proof.
  induction a as [|ev a IH]; [reflexivity|].
  destruct ev; simpl; rewrite IH; reflexivity.
Qed.

Lemma arrivals_app (a b : Trace) :
  arrivals (a ++ b)%list = (arrivals a ++ arrivals b)%list.
Proof.
  induction a as [|ev a IH]; [reflexivity|].
  destruct ev; simpl; rewrite IH; reflexivity.
Qed.

Lemma removals_app (a b : Trace) :
  removals (a ++ b)%list = removals a + removals b.
Proof.
  induction a as [|ev a IH]; [reflexivity|].
  destruct ev; simpl; rewrite IH; reflexivity.
Qed.

Lemma opens_app (a b : Trace) : opens (a ++ b)%list = opens a + opens b.
Proof.
  induction a as [|ev a IH]; [reflexivity|].
  destruct ev; simpl; rewrite IH; reflexivity.
Qed.

(** ** The resolver *)

Ltac run_resolver :=
  cbv beta iota delta
    [_extract_uid resolved resolver_events bind try_except call emit logger ret fst snd].

(** The resolver appends its events to whatever trace it is given. *)
Lemma _extract_uid_trace drv c target tr :
  _extract_uid drv c target tr
  = ((tr ++ resolver_events drv c target)%list, resolved drv c target).
Proof.
  run_resolver.
  destruct (hardware_uid target) as [hw_uid|e0]; simpl;
    [|now rewrite app_nil_r].
  destruct (activate drv c target) as [[tag|]|e]; simpl;
    rewrite <- ?app_assoc; try reflexivity.
  destruct (String.eqb (type tag) "Type4Tag"); simpl;
    rewrite <- ?app_assoc; try reflexivity.
  destruct (transceive tag _) as [response|e]; simpl;
    rewrite <- ?app_assoc; try reflexivity.
  destruct (truthy_bytes response); simpl;
    rewrite <- ?app_assoc; try reflexivity.
  destruct (endswith response _); simpl;
    rewrite <- ?app_assoc; reflexivity.
Qed.

Lemma resolver_custom drv c target hw tag response :
  sdd_res target = Some hw ->
  activate drv c target = Returns (Some tag) ->
  type tag = "Type4Tag" ->
  transceive tag select_aid_apdu = Returns response ->
  endswith response status_ok = true ->
  resolved drv c target = Returns (upper (hex (drop_last 2 response)))
  /\ resolver_events drv c target =
       [Activated target; Transceived select_aid_apdu;
        Logged INFO ("Android App found! Custom UID: "
                     ++ upper (hex (drop_last 2 response)))].
Proof.
  intros Hsdd Hact Hty Htx Hsw.
  assert (Htruthy := endswith_status_truthy _ Hsw).
  run_resolver. unfold hardware_uid. rewrite Hsdd, Hact. simpl.
  rewrite Hty. simpl.
  change (transceive tag _) with (transceive tag select_aid_apdu).
  rewrite Htx. simpl. rewrite Htruthy. simpl.
  change (endswith response _) with (endswith response status_ok).
  rewrite Hsw. simpl. split; reflexivity.
Qed.

Lemma resolver_fallback drv c target hw :
  sdd_res target = Some hw ->
  falls_back drv c target ->
  resolved drv c target = Returns (upper (hex hw)).
Proof.
  intros Hsdd
         [e Hact | Hact | tag Hact Hty | tag e Hact Hty Htx
         | tag response Hact Hty Htx Hsw];
    run_resolver; unfold hardware_uid; rewrite Hsdd, Hact; simpl;
    try reflexivity.
  - apply String.eqb_neq in Hty. rewrite Hty. reflexivity.
  - rewrite Hty. simpl.
    change (transceive tag _) with (transceive tag select_aid_apdu).
    rewrite Htx. reflexivity.
  - rewrite Hty. simpl.
    change (transceive tag _) with (transceive tag select_aid_apdu).
    rewrite Htx. simpl.
    destruct (truthy_bytes response); simpl; [|reflexivity].
    change (endswith response _) with (endswith response status_ok).
    rewrite Hsw. reflexivity.
Qed.

Lemma resolver_transmits drv c target hw tag :
  sdd_res target = Some hw ->
  activate drv c target = Returns (Some tag) ->
  type tag = "Type4Tag" ->
  transmissions (resolver_events drv c target) = [select_aid_apdu].
Proof.
  intros Hsdd Hact Hty. run_resolver. unfold hardware_uid.
  rewrite Hsdd, Hact. simpl. rewrite Hty. simpl.
  destruct (transceive tag _) as [response|e]; simpl; [|reflexivity].
  destruct (truthy_bytes response); simpl; [|reflexivity].
  destruct (endswith response _); reflexivity.
Qed.

(** Every target either falls back or answers the select command with
    a body followed by the status word. *)
Lemma resolver_cases drv c target :
  falls_back drv c target \/
  exists tag body,
    activate drv c target = Returns (Some tag) /\
    type tag = "Type4Tag" /\
    transceive tag select_aid_apdu = Returns (body ++ status_ok)%list.
Proof.
  destruct (activate drv c target) as [[tag|]|e] eqn:Hact.
  - destruct (String.eqb_spec (type tag) "Type4Tag") as [Hty|Hty].
    + destruct (transceive tag select_aid_apdu) as [response|e] eqn:Htx.
      * destruct (endswith response status_ok) eqn:Hsw.
        -- right. exists tag, (drop_last 2 response).
           repeat split; trivial. rewrite Htx. f_equal.
           apply (endswith_split _ _ Hsw).
        -- left. eapply status_fails; eassumption.
      * left. eapply transceive_raises; eassumption.
    + left. eapply other_type; eassumption.
  - left. now apply activation_none.
  - left. eapply activation_raises; eassumption.
Qed.

Lemma resolver_no_callbacks drv c target :
  arrivals (resolver_events drv c target) = [] /\
  removals (resolver_events drv c target) = 0 /\
  opens (resolver_events drv c target) = 0.
Proof.
  run_resolver.
  destruct (hardware_uid target) as [hw_uid|e0]; simpl; auto.
  destruct (activate drv c target) as [[tag|]|e]; simpl; auto.
  destruct (String.eqb (type tag) "Type4Tag"); simpl; auto.
  destruct (transceive tag _) as [response|e]; simpl; auto.
  destruct (truthy_bytes response); simpl; auto.
  destruct (endswith response _); simpl; auto.
Qed.

Lemma resolver_total drv c target hw :
  sdd_res target = Some hw ->
  exists uid, resolved drv c target = Returns uid.
Proof.
  intros Hsdd.
  destruct (resolver_cases drv c target) as [Hfb | (tag & body & Hact & Hty & Htx)].
  - eexists. apply (resolver_fallback Hsdd Hfb).
  - eexists. eapply resolver_custom; eauto. apply (endswith_app body status_ok).
Qed.

(** Without an anti-collision response the resolver raises at once:
    nothing is sent and nothing is logged. *)
Lemma resolver_raises drv c target :
  sdd_res target = None ->
  resolved drv c target =
    Raises (mkExn "AttributeError" "'NoneType' object has no attribute 'hex'") /\
  resolver_events drv c target = [].
Proof.
  intros Hsdd. run_resolver. unfold hardware_uid. rewrite Hsdd. auto.
Qed.

(** ** The loop body *)

Lemma set_nth_length {A} (a : A) : forall l n,
  List.length (set_nth n a l) = List.length l.
Proof.
  induction l as [|x l IH]; intros [|n]; simpl; auto.
Qed.

Lemma set_nth_same {A} (a : A) : forall l n x,
  nth_error l n = Some x -> nth_error (set_nth n a l) n = Some a.
Proof.
  induction l as [|y l IH]; intros [|n] x; simpl; try discriminate; eauto.
Qed.

Lemma uid_eqb_eq (a b : option string) : uid_eqb a b = true <-> a = b.
Proof.
  destruct a as [x|], b as [y|]; simpl; split;
    try discriminate; try reflexivity.
  - intros H. apply String.eqb_eq in H. congruence.
  - intros H. injection H as ->. apply String.eqb_refl.
Qed.

Lemma truthy_str_nonempty (s : string) : truthy_str s = true <-> s <> "".
Proof.
  destruct s; simpl; split; congruence.
Qed.

Section Loop.

Variable C : Type.
Implicit Types (w : World C) (drv : Driver).

Ltac run_body :=
  cbv beta iota delta
    [_reader_loop_body clf_sense connect disconnect start stop
     Thread_start Thread_join bind try_except call get modify ret raise
     zoom on_self on_trace on_consumer emit logger].

Lemma body_fires w drv h target uid cb c' o :
  clf (self w) = Some h ->
  sense drv h = Returns (Some target) ->
  resolved drv (Some h) target = Returns uid ->
  uid <> "" ->
  current_uid (self w) <> Some uid ->
  card_callback (self w) = Some cb ->
  cb uid (consumer w) = (c', o) ->
  _reader_loop_body drv w =
    (mkWorld (nfc w) (set_current_uid (Some uid) (self w)) c' (threads w)
       (trace w ++ sensing drv h target ++
        [Arrival uid;
         match o with
         | Returns _ => Logged INFO ("Card detected: " ++ uid)
         | Raises e => Logged ERROR ("Error reading from NFC reader: " ++ exn_msg e)
         end])%list,
     Returns tt).
Proof.
  intros Hclf Hsense Hres Hne Hcur Hcb Hrun.
  apply truthy_str_nonempty in Hne.
  assert (Hneq : uid_eqb (Some uid) (current_uid (self w)) = false).
  { destruct (uid_eqb _ _) eqn:E; [|reflexivity].
    apply uid_eqb_eq in E. congruence. }
  run_body. rewrite Hclf. simpl. rewrite Hsense. simpl. rewrite Hclf.
  rewrite _extract_uid_trace, Hres. simpl.
  change (match current_uid (self w) with
          | Some y => (uid =? y)%string
          | None => false
          end) with (uid_eqb (Some uid) (current_uid (self w))).
  rewrite Hne, Hneq, Hcb. simpl. rewrite Hrun.
  unfold sensing. destruct o as [[]|e]; simpl;
    rewrite <- !app_assoc; reflexivity.
Qed.

Lemma body_fires_unregistered w drv h target uid :
  clf (self w) = Some h ->
  sense drv h = Returns (Some target) ->
  resolved drv (Some h) target = Returns uid ->
  uid <> "" ->
  current_uid (self w) <> Some uid ->
  card_callback (self w) = None ->
  _reader_loop_body drv w =
    (mkWorld (nfc w) (set_current_uid (Some uid) (self w)) (consumer w) (threads w)
       (trace w ++ sensing drv h target ++
        [Logged INFO ("Card detected: " ++ uid)])%list,
     Returns tt).
Proof.
  intros Hclf Hsense Hres Hne Hcur Hcb.
  apply truthy_str_nonempty in Hne.
  assert (Hneq : uid_eqb (Some uid) (current_uid (self w)) = false).
  { destruct (uid_eqb _ _) eqn:E; [|reflexivity].
    apply uid_eqb_eq in E. congruence. }
  run_body. rewrite Hclf. simpl. rewrite Hsense. simpl. rewrite Hclf.
  rewrite _extract_uid_trace, Hres. simpl.
  change (match current_uid (self w) with
          | Some y => (uid =? y)%string
          | None => false
          end) with (uid_eqb (Some uid) (current_uid (self w))).
  rewrite Hne, Hneq, Hcb. simpl.
  unfold sensing. simpl. rewrite <- !app_assoc. reflexivity.
Qed.

Lemma body_silent w drv h target uid :
  clf (self w) = Some h ->
  sense drv h = Returns (Some target) ->
  resolved drv (Some h) target = Returns uid ->
  uid = "" \/ current_uid (self w) = Some uid ->
  _reader_loop_body drv w = (add_events (sensing drv h target) w, Returns tt).
Proof.
  intros Hclf Hsense Hres Hsame.
  assert (Hcond : truthy_str uid
                  && negb (uid_eqb (Some uid) (current_uid (self w))) = false).
  { destruct Hsame as [-> | Hcur]; [reflexivity|].
    symmetry in Hcur. apply uid_eqb_eq in Hcur. rewrite Hcur.
    apply andb_false_r. }
  run_body. rewrite Hclf. simpl. rewrite Hsense. simpl. rewrite Hclf.
  rewrite _extract_uid_trace, Hres. simpl.
  change (match current_uid (self w) with
          | Some y => (uid =? y)%string
          | None => false
          end) with (uid_eqb (Some uid) (current_uid (self w))).
  rewrite Hcond. unfold add_events, sensing. simpl.
  rewrite <- !app_assoc. reflexivity.
Qed.

Lemma body_removes w drv h cur cb c' o :
  clf (self w) = Some h ->
  sense drv h = Returns None ->
  current_uid (self w) = Some cur ->
  card_removed_callback (self w) = Some cb ->
  cb (consumer w) = (c', o) ->
  _reader_loop_body drv w =
    (mkWorld (nfc w)
       match o with
       | Returns _ => set_current_uid None (self w)
       | Raises _ => self w
       end
       c' (threads w)
       (trace w ++
        [Sensed h; Logged INFO ("Card removed: " ++ cur); Removal] ++
        match o with
        | Returns _ => []
        | Raises e => [Logged ERROR ("Error reading from NFC reader: " ++ exn_msg e)]
        end)%list,
     Returns tt).
Proof.
  intros Hclf Hsense Hcur Hcb Hrun.
  run_body. rewrite Hclf. simpl. rewrite Hsense. simpl.
  rewrite Hcur, Hcb. simpl. rewrite Hrun.
  destruct o as [[]|e]; simpl; rewrite <- !app_assoc; reflexivity.
Qed.

Lemma body_removes_unregistered w drv h cur :
  clf (self w) = Some h ->
  sense drv h = Returns None ->
  current_uid (self w) = Some cur ->
  card_removed_callback (self w) = None ->
  _reader_loop_body drv w =
    (mkWorld (nfc w) (set_current_uid None (self w)) (consumer w) (threads w)
       (trace w ++ [Sensed h; Logged INFO ("Card removed: " ++ cur)])%list,
     Returns tt).
Proof.
  intros Hclf Hsense Hcur Hcb.
  run_body. rewrite Hclf. simpl. rewrite Hsense. simpl.
  rewrite Hcur, Hcb. simpl. rewrite <- !app_assoc. reflexivity.
Qed.

Lemma body_idle w drv h :
  clf (self w) = Some h ->
  sense drv h = Returns None ->
  current_uid (self w) = None ->
  _reader_loop_body drv w = (add_events [Sensed h] w, Returns tt).
Proof.
  intros Hclf Hsense Hcur.
  run_body. rewrite Hclf. simpl. rewrite Hsense. simpl.
  rewrite Hcur. reflexivity.
Qed.

Ltac framed := repeat split; (reflexivity || assumption).

(** Whatever the driver and the callbacks do, the body returns: its
    handler catches every exception; and it writes nothing but the
    identity, the consumer and the trace. *)
Lemma body_frame w drv :
  snd (_reader_loop_body drv w) = Returns tt /\
  same_config w (fst (_reader_loop_body drv w)) /\
  threads (fst (_reader_loop_body drv w)) = threads w /\
  clf (self (fst (_reader_loop_body drv w))) = clf (self w).
Proof.
  unfold same_config. run_body.
  destruct (clf (self w)) as [h|] eqn:Hclf; simpl; [|framed].
  destruct (sense drv h) as [[target|]|e]; simpl;
    [| | framed].
  - rewrite Hclf, _extract_uid_trace.
    destruct (resolved drv (Some h) target) as [uid|e]; simpl;
      [|framed].
    destruct (truthy_str uid && _); simpl; [|framed].
    destruct (card_callback (self w)) as [cb|] eqn:Hcb; simpl;
      [|framed].
    destruct (cb uid (consumer w)) as [c' [[]|e]]; simpl;
      framed.
  - destruct (current_uid (self w)) as [cur|]; simpl; [|framed].
    destruct (card_removed_callback (self w)) as [cb|] eqn:Hcb; simpl;
      [|framed].
    destruct (cb (consumer w)) as [c' [[]|e]]; simpl; framed.
Qed.

(** ** [connect] and [disconnect] *)

Lemma same_config_refl w : same_config w w.
Proof. unfold same_config. framed. Qed.

Lemma same_config_trans w1 w2 w3 :
  same_config w1 w2 -> same_config w2 w3 -> same_config w1 w3.
Proof.
  unfold same_config.
  intros (A1 & A2 & A3 & A4 & A5 & A6 & A7) (B1 & B2 & B3 & B4 & B5 & B6 & B7).
  repeat split; congruence.
Qed.

Lemma connect_failure w drv :
  open_fails drv w = true ->
  exists evs,
    connect drv w = (add_events evs w, Returns false) /\
    arrivals evs = [] /\ removals evs = 0 /\ opens evs <= 1.
Proof.
  unfold open_fails. intros Hfail. run_body.
  destruct (nfc w); simpl in *.
  - destruct (ContactlessFrontend drv (port (self w))) as [h|e];
      [discriminate|].
    eexists. unfold add_events. simpl. rewrite <- app_assoc.
    split; [reflexivity|]. simpl. auto.
  - eexists. split; [reflexivity|]. simpl. auto.
Qed.

(** [connect] catches what the driver raises, calls no callback and
    writes only the handle and the trace. *)
Lemma connect_frame w drv :
  (exists b, snd (connect drv w) = Returns b) /\
  same_config w (fst (connect drv w)) /\
  threads (fst (connect drv w)) = threads w /\
  consumer (fst (connect drv w)) = consumer w /\
  current_uid (self (fst (connect drv w))) = current_uid (self w) /\
  arrivals (trace (fst (connect drv w))) = arrivals (trace w) /\
  removals (trace (fst (connect drv w))) = removals (trace w).
Proof.
  unfold same_config. run_body.
  destruct (nfc w) eqn:Hnfc; simpl.
  - destruct (ContactlessFrontend drv (port (self w))) as [h|e]; simpl;
      rewrite <- ?app_assoc, ?arrivals_app, ?removals_app; simpl;
      rewrite ?app_nil_r, ?Nat.add_0_r; repeat split; eauto.
  - rewrite ?arrivals_app, ?removals_app; simpl;
      rewrite ?app_nil_r, ?Nat.add_0_r; repeat split; eauto.
Qed.

Lemma disconnect_closed w :
  clf (self w) = None -> disconnect w = (w, Returns tt).
Proof.
  intros Hclf. run_body. rewrite Hclf. reflexivity.
Qed.

Lemma disconnect_open w h :
  clf (self w) = Some h ->
  disconnect w =
    (mkWorld (nfc w) (set_clf None (self w)) (consumer w) (threads w)
       (trace w ++ [Closed h; Logged INFO "Disconnected from NFC reader"])%list,
     Returns tt).
Proof.
  intros Hclf. run_body. rewrite Hclf. simpl.
  rewrite <- app_assoc. reflexivity.
Qed.

Lemma disconnect_frame w :
  snd (disconnect w) = Returns tt /\
  clf (self (fst (disconnect w))) = None /\
  same_config w (fst (disconnect w)) /\
  threads (fst (disconnect w)) = threads w.
Proof.
  destruct (clf (self w)) as [h|] eqn:Hclf.
  - rewrite (@disconnect_open w h Hclf). unfold same_config. simpl. framed.
  - rewrite (@disconnect_closed w Hclf). unfold same_config. simpl. framed.
Qed.

(** ** Thread steps *)

Lemma step_frame t w drv : same_config w (_reader_loop_step t drv w).
Proof.
  unfold _reader_loop_step.
  destruct (nth_error (threads w) t) as [[| |]|]; try apply same_config_refl.
  - destruct (connect_frame w drv) as ((b & Hb) & Hcfg & Hth & _).
    destruct (connect drv w) as [w' o]. simpl in *. subst o.
    assert (Hset : forall p, same_config w (set_phase t p w')).
    { intros p. unfold same_config in *. simpl.
      rewrite set_nth_length. exact Hcfg. }
    destruct b; apply Hset.
  - destruct (running (self w)).
    + destruct (body_frame w drv) as (Hb & Hcfg & _).
      destruct (_reader_loop_body drv w) as [w' o]. simpl in *. subst o.
      exact Hcfg.
    + unfold same_config. simpl. rewrite set_nth_length. framed.
Qed.

Lemma schedule_frame steps : forall w, same_config w (schedule steps w).
Proof.
  unfold schedule.
  induction steps as [|[t drv] steps IH]; intros w; simpl.
  - apply same_config_refl.
  - eapply same_config_trans; [apply step_frame | apply IH].
Qed.

Lemma step_in_loop t w drv :
  nth_error (threads w) t = Some InLoop ->
  running (self w) = true ->
  _reader_loop_step t drv w = fst (_reader_loop_body drv w).
Proof.
  intros Hth Hrun. unfold _reader_loop_step. rewrite Hth, Hrun.
  destruct (body_frame w drv) as (Hb & _).
  destruct (_reader_loop_body drv w) as [w' o]. simpl in *. now subst o.
Qed.

(** A thread in the loop stays in the loop while the flag is set: no
    exception ends it. *)
Lemma step_stays_in_loop t w drv :
  nth_error (threads w) t = Some InLoop ->
  running (self w) = true ->
  nth_error (threads (_reader_loop_step t drv w)) t = Some InLoop /\
  running (self (_reader_loop_step t drv w)) = true /\
  clf (self (_reader_loop_step t drv w)) = clf (self w) /\
  card_callback (self (_reader_loop_step t drv w)) = card_callback (self w) /\
  card_removed_callback (self (_reader_loop_step t drv w))
    = card_removed_callback (self w).
Proof.
  intros Hth Hrun. rewrite (@step_in_loop t w drv Hth Hrun).
  destruct (body_frame w drv) as (_ & Hcfg & Hthreads & Hclf).
  destruct Hcfg as (_ & _ & Hcb & Hrcb & Hrunning & _).
  rewrite Hthreads, Hrunning, Hclf, Hcb, Hrcb. auto.
Qed.

Lemma step_exited t w drv :
  nth_error (threads w) t = Some Exited -> _reader_loop_step t drv w = w.
Proof.
  intros Hth. unfold _reader_loop_step. now rewrite Hth.
Qed.

(** A thread that has returned takes no further step. *)
Lemma polling_exited t drvs : forall w,
  nth_error (threads w) t = Some Exited -> polling t drvs w = w.
Proof.
  unfold polling.
  induction drvs as [|drv drvs IH]; intros w Hth; simpl; [reflexivity|].
  rewrite (@step_exited t w drv Hth). now apply IH.
Qed.


(** ** [start] and [stop] *)

Lemma start_running w :
  running (self w) = true -> start w = (w, Returns tt).
Proof.
  intros Hrun. run_body. rewrite Hrun. reflexivity.
Qed.

Lemma start_stopped w :
  running (self w) = false ->
  start w =
    (mkWorld (nfc w)
       (set_reader_thread (Some (List.length (threads w)))
          (set_running true (self w)))
       (consumer w) (threads w ++ [AtEntry])%list
       (trace w ++ [Logged INFO "NFC reader thread started"])%list,
     Returns tt).
Proof.
  intros Hrun. run_body. rewrite Hrun. reflexivity.
Qed.

Lemma stop_unfold during_join w :
  stop during_join w =
    (add_events [Logged INFO "NFC reader stopped"]
       (fst (disconnect (joined during_join w))),
     Returns tt).
Proof.
  unfold stop, joined, Thread_join, add_events.
  cbv beta iota delta [bind get modify ret zoom on_self on_trace emit logger].
  simpl.
  destruct (reader_thread (self w)); simpl;
    match goal with
    | |- context [disconnect ?x] =>
        destruct (disconnect_frame x) as (Hd & _);
        destruct (disconnect x) as [w' o]; simpl in *; subst o; reflexivity
    end.
Qed.

Lemma joined_frame during_join w :
  running (self (joined during_join w)) = false /\
  List.length (threads (joined during_join w)) = List.length (threads w) /\
  card_callback (self (joined during_join w)) = card_callback (self w) /\
  card_removed_callback (self (joined during_join w))
    = card_removed_callback (self w).
Proof.
  unfold joined.
  destruct (reader_thread (self w)); simpl; [|auto].
  match goal with
  | |- context [schedule _ ?x] =>
      destruct (schedule_frame during_join x) as (_ & _ & H3 & H4 & H5 & _ & H7)
  end.
  simpl in *. auto.
Qed.

Lemma stop_frame during_join w :
  snd (stop during_join w) = Returns tt /\
  clf (self (fst (stop during_join w))) = None /\
  running (self (fst (stop during_join w))) = false /\
  List.length (threads (fst (stop during_join w))) = List.length (threads w).
Proof.
  rewrite stop_unfold. simpl.
  destruct (disconnect_frame (joined during_join w))
    as (_ & Hclf & (_ & _ & _ & _ & Hrun & _ & Hlen) & _).
  destruct (joined_frame during_join w) as (Hrun' & Hlen' & _).
  repeat split; congruence.
Qed.

(** ** Runs of iterations *)

Lemma sensed_identity_inv drv h uid :
  sensed_identity drv h = Some uid ->
  exists target,
    sense drv h = Returns (Some target) /\
    resolved drv (Some h) target = Returns uid.
Proof.
  unfold sensed_identity.
  destruct (sense drv h) as [[target|]|e]; try discriminate.
  destruct (resolved drv (Some h) target) as [u|e] eqn:Hres; try discriminate.
  intros [= ->]. eauto.
Qed.

Lemma senses_nothing_inv drv h :
  senses_nothing drv h = true -> sense drv h = Returns None.
Proof.
  unfold senses_nothing.
  destruct (sense drv h) as [[target|]|e]; try discriminate. reflexivity.
Qed.

Lemma sensing_no_callbacks drv h target :
  arrivals (sensing drv h target) = [] /\ removals (sensing drv h target) = 0.
Proof.
  unfold sensing. simpl.
  destruct (resolver_no_callbacks drv (Some h) target) as (Ha & Hr & _). auto.
Qed.

(** While the identity held is sensed again and again, nothing fires
    and nothing changes but the trace. *)
Lemma polling_same_identity t h uid : forall drvs w,
  nth_error (threads w) t = Some InLoop ->
  running (self w) = true ->
  clf (self w) = Some h ->
  current_uid (self w) = Some uid ->
  Forall (fun drv => sensed_identity drv h = Some uid) drvs ->
  arrivals (trace (polling t drvs w)) = arrivals (trace w) /\
  removals (trace (polling t drvs w)) = removals (trace w) /\
  current_uid (self (polling t drvs w)) = Some uid /\
  consumer (polling t drvs w) = consumer w.
Proof.
  unfold polling.
  induction drvs as [|drv drvs IH]; intros w Hth Hrun Hclf Hcur Hall; simpl;
    [auto|].
  inversion Hall as [|d ds Hd Hds]; subst.
  destruct (sensed_identity_inv _ _ Hd) as (target & Hsense & Hres).
  rewrite (@step_in_loop t w drv Hth Hrun).
  rewrite (@body_silent w drv h target uid Hclf Hsense Hres (or_intror Hcur)).
  simpl.
  destruct (sensing_no_callbacks drv h target) as (Ha & Hr).
  destruct (IH (add_events (sensing drv h target) w)) as (IHa & IHr & IHc & IHk);
    auto.
  rewrite IHa, IHr, IHc, IHk. simpl.
  rewrite arrivals_app, removals_app, Ha, Hr, app_nil_r, Nat.add_0_r. auto.
Qed.

(** While nothing is sensed and no identity is held, nothing fires. *)
Lemma polling_idle t h : forall drvs w,
  nth_error (threads w) t = Some InLoop ->
  running (self w) = true ->
  clf (self w) = Some h ->
  current_uid (self w) = None ->
  Forall (fun drv => senses_nothing drv h = true) drvs ->
  arrivals (trace (polling t drvs w)) = arrivals (trace w) /\
  removals (trace (polling t drvs w)) = removals (trace w) /\
  current_uid (self (polling t drvs w)) = None /\
  consumer (polling t drvs w) = consumer w.
Proof.
  unfold polling.
  induction drvs as [|drv drvs IH]; intros w Hth Hrun Hclf Hcur Hall; simpl;
    [auto|].
  inversion Hall as [|d ds Hd Hds]; subst.
  apply senses_nothing_inv in Hd.
  rewrite (@step_in_loop t w drv Hth Hrun).
  rewrite (@body_idle w drv h Hclf Hd Hcur). simpl.
  destruct (IH (add_events [Sensed h] w)) as (IHa & IHr & IHc & IHk); auto.
  rewrite IHa, IHr, IHc, IHk. simpl.
  rewrite arrivals_app, removals_app. simpl.
  rewrite app_nil_r, Nat.add_0_r. auto.
Qed.


End Loop.

(** * The specification *)

(** ** The identity resolver *)

(** C1 (resolver priority law).  When a target with a hardware
    identifier activates and the tag advertises the type "Type4Tag",
    the resolver transmits exactly one command, the 13 bytes
    00 A4 04 00 07 F0 00 00 00 01 00 01 00; and when the response ends
    with 90 00 it returns the response without these two bytes, in
    uppercase hexadecimal (text over 0-9 and A-F that decodes to those
    bytes), whatever the hardware identifier [hw] is. *)
Theorem select_then_custom_identity drv c target hw tag tr :
  sdd_res target = Some hw ->
  activate drv c target = Returns (Some tag) ->
  type tag = "Type4Tag" ->
  fromhex SELECT_AID = Returns select_aid_apdu /\
  List.length select_aid_apdu = 13 /\
  transmissions (fst (_extract_uid drv c target tr))
    = (transmissions tr ++ [select_aid_apdu])%list /\
  forall response,
    transceive tag select_aid_apdu = Returns response ->
    endswith response [x90; x00] = true ->
    exists body,
      response = (body ++ [x90; x00])%list /\
      snd (_extract_uid drv c target tr) = Returns (upper (hex body)) /\
      uppercase_hex (upper (hex body)) = true /\
      fromhex (upper (hex body)) = Returns body.
Proof.
  intros Hsdd Hact Hty. rewrite _extract_uid_trace. simpl.
  repeat split.
  - rewrite transmissions_app. f_equal.
    apply (resolver_transmits _ _ _ Hsdd Hact Hty).
  - intros response Htx Hsw. exists (drop_last 2 response).
    split; [|split; [|split]].
    + apply (endswith_split _ _ Hsw).
    + apply (resolver_custom _ _ _ Hsdd Hact Hty Htx Hsw).
    + apply upper_hex_uppercase.
    + apply fromhex_upper_hex.
Qed.

(** C2 (resolver fallback law).  For a target with the hardware
    identifier [hw]: when activation raises, the type check fails, the
    transmission raises or the response does not end with the status
    word, the resolver returns [hw] in uppercase hexadecimal; it
    returns, so nothing propagates. *)
Theorem fallback_to_hardware_identity drv c target hw tr :
  sdd_res target = Some hw ->
  falls_back drv c target ->
  snd (_extract_uid drv c target tr) = Returns (upper (hex hw)) /\
  uppercase_hex (upper (hex hw)) = true /\
  fromhex (upper (hex hw)) = Returns hw.
Proof.
  intros Hsdd Hfb. rewrite _extract_uid_trace. simpl.
  split; [apply (resolver_fallback Hsdd Hfb)|].
  split; [apply upper_hex_uppercase | apply fromhex_upper_hex].
Qed.

(** C5, amended (totality).  For every target that carries an
    anti-collision response, every connection handle and every driver
    behaviour the resolver returns an identity string and does not
    raise: both [try] blocks catch what the driver raises, and the
    hardware identifier read in step 1 is the fallback. *)
Theorem resolver_is_total drv c target hw tr :
  sdd_res target = Some hw ->
  exists uid,
    _extract_uid drv c target tr
    = ((tr ++ resolver_events drv c target)%list, Returns uid) /\
    (falls_back drv c target -> uid = upper (hex hw)).
Proof.
  intros Hsdd.
  destruct (@resolver_total drv c target hw Hsdd) as (uid & Huid).
  exists uid. rewrite _extract_uid_trace, Huid. split; [reflexivity|].
  intros Hfb. rewrite (resolver_fallback Hsdd Hfb) in Huid. congruence.
Qed.

Section Claims.

Variable C : Type.
Implicit Types (w : World C) (drv : Driver).

(** ** The detection loop *)


(** X23.  With a removal callback registered that returns normally,
    an iteration that senses no target invokes the callback if and
    only if an identity is held, and holds none afterwards; when none
    is held the iteration only records the sense; and however many
    iterations in a row sense nothing, the callback is invoked at most
    once. *)
Theorem removal_fires_once_when_callback_returns w drv h cb :
  clf (self w) = Some h ->
  card_removed_callback (self w) = Some cb ->
  sense drv h = Returns None ->
  snd (cb (consumer w)) = Returns tt ->
  let w' := fst (_reader_loop_body drv w) in
  (removals (trace w') = S (removals (trace w)) <-> current_uid (self w) <> None) /\
  (current_uid (self w) = None -> w' = add_events [Sensed h] w) /\
  current_uid (self w') = None /\
  (forall t drvs,
     nth_error (threads w) t = Some InLoop ->
     running (self w) = true ->
     Forall (fun d => senses_nothing d h = true) drvs ->
     removals (trace (polling t (drv :: drvs) w)) <= S (removals (trace w))).
Proof.
  intros Hclf Hcb Hsense Hret w'.
  assert (Hidle : current_uid (self w) = None -> w' = add_events [Sensed h] w).
  { intros Hcur. unfold w'. now rewrite (@body_idle C w drv h Hclf Hsense Hcur). }
  assert (Hheld : forall cur, current_uid (self w) = Some cur ->
            exists c',
              w' = mkWorld (nfc w) (set_current_uid None (self w)) c' (threads w)
                     (trace w ++
                      [Sensed h; Logged INFO ("Card removed: " ++ cur); Removal])%list).
  { intros cur Hcur. destruct (cb (consumer w)) as [c' o] eqn:Hrun.
    simpl in Hret. subst o. exists c'. unfold w'.
    rewrite (@body_removes C w drv h cur cb c' (Returns tt)
               Hclf Hsense Hcur Hcb Hrun).
    reflexivity. }
  split; [split|split; [|split]].
  - intros Hrem Hcur. rewrite (Hidle Hcur) in Hrem.
    unfold add_events in Hrem. cbn [trace] in Hrem.
    rewrite removals_app in Hrem. simpl in Hrem. lia.
  - intros Hcur. destruct (current_uid (self w)) as [cur|] eqn:E;
      [|congruence].
    destruct (Hheld cur eq_refl) as (c' & ->). cbn [trace].
    rewrite removals_app. simpl. lia.
  - exact Hidle.
  - destruct (current_uid (self w)) as [cur|] eqn:E.
    + destruct (Hheld cur eq_refl) as (c' & ->). reflexivity.
    + rewrite (Hidle eq_refl). exact E.
  - intros t drvs Hth Hrun Hall.
    change (polling t (drv :: drvs) w)
      with (polling t drvs (_reader_loop_step t drv w)).
    rewrite (@step_in_loop C t w drv Hth Hrun). fold w'.
    assert (Hstep : removals (trace w') <= S (removals (trace w)) /\
                    nth_error (threads w') t = Some InLoop /\
                    running (self w') = true /\
                    clf (self w') = Some h /\
                    current_uid (self w') = None).
    { destruct (current_uid (self w)) as [cur|] eqn:E.
      - destruct (Hheld cur eq_refl) as (c' & ->). cbn [trace].
        rewrite removals_app. simpl. repeat split; trivial. lia.
      - rewrite (Hidle eq_refl). unfold add_events. cbn [trace].
        rewrite removals_app. simpl. repeat split; trivial. lia. }
    destruct Hstep as (Hle & Hth' & Hrun' & Hclf' & Hcur').
    destruct (@polling_idle C t h drvs w' Hth' Hrun' Hclf' Hcur' Hall)
      as (_ & Hr & _).
    rewrite Hr. exact Hle.
Qed.



(** C8 (shutdown).  Whatever the threads do while [stop] waits, [stop]
    returns without raising, the connection held when the wait ends is
    closed, and afterwards the handle is null and [is_connected] is
    false; the same holds for a second [stop]; and [disconnect] on a
    null handle changes nothing and returns. *)
Theorem stop_closes_and_is_idempotent w join1 join2 :
  let w1 := fst (stop join1 w) in
  let w2 := fst (stop join2 w1) in
  snd (stop join1 w) = Returns tt /\
  clf (self w1) = None /\ is_connected w1 = false /\
  snd (stop join2 w1) = Returns tt /\
  clf (self w2) = None /\ is_connected w2 = false /\
  (forall h, clf (self (joined join1 w)) = Some h -> In (Closed h) (trace w1)) /\
  (forall v : World C, clf (self v) = None -> disconnect v = (v, Returns tt)).
Proof.
  intros w1 w2.
  destruct (stop_frame join1 w) as (Hret1 & Hclf1 & Hrun1 & _).
  destruct (stop_frame join2 w1) as (Hret2 & Hclf2 & Hrun2 & _).
  fold w1 in Hclf1, Hrun1. fold w2 in Hclf2, Hrun2.
  unfold is_connected. rewrite Hclf1, Hclf2, Hrun1, Hrun2.
  repeat split; trivial.
  - intros h Hh. unfold w1. rewrite stop_unfold.
    rewrite (@disconnect_open C _ h Hh). simpl.
    rewrite <- app_assoc. apply in_or_app. right. now left.
  - apply disconnect_closed.
Qed.

(** C9 (bare status word).  When the response to the select command
    is just 90 00, the resolver returns the empty string, not the
    hardware identifier [hw] of the target; the iteration that sensed
    the target invokes no callback and leaves the reader and the
    consumer as they were. *)
Theorem bare_status_word_is_ignored w drv h target hw tag :
  clf (self w) = Some h ->
  sense drv h = Returns (Some target) ->
  sdd_res target = Some hw ->
  activate drv (Some h) target = Returns (Some tag) ->
  type tag = "Type4Tag" ->
  transceive tag select_aid_apdu = Returns [x90; x00] ->
  resolved drv (Some h) target = Returns "" /\
  let w' := fst (_reader_loop_body drv w) in
  arrivals (trace w') = arrivals (trace w) /\
  removals (trace w') = removals (trace w) /\
  self w' = self w /\
  consumer w' = consumer w.
Proof.
  intros Hclf Hsense Hsdd Hact Hty Htx.
  assert (Hres : resolved drv (Some h) target = Returns "").
  { apply (resolver_custom _ _ _ Hsdd Hact Hty Htx). reflexivity. }
  split; [exact Hres|]. intros w'. unfold w'.
  rewrite (@body_silent C w drv h target "" Hclf Hsense Hres (or_introl eq_refl)).
  destruct (sensing_no_callbacks drv h target) as (Ha & Hr).
  unfold add_events. cbn [fst trace self consumer].
  rewrite arrivals_app, removals_app, Ha, Hr, app_nil_r, Nat.add_0_r. auto.
Qed.

(** C10 (identity recorded before the callback).  When the arrival
    callback raises on a new identity, the body has already recorded
    the identity: the handler of the iteration logs the error, the
    thread stays in the loop, the identity is held, and the callback
    is not invoked again while the same identity keeps being
    sensed. *)
Theorem failing_arrival_callback_is_not_retried w t drv h cb target uid c' e :
  nth_error (threads w) t = Some InLoop ->
  running (self w) = true ->
  clf (self w) = Some h ->
  card_callback (self w) = Some cb ->
  sense drv h = Returns (Some target) ->
  resolved drv (Some h) target = Returns uid ->
  uid <> "" ->
  current_uid (self w) <> Some uid ->
  cb uid (consumer w) = (c', Raises e) ->
  let w' := _reader_loop_step t drv w in
  snd (_reader_loop_body drv w) = Returns tt /\
  trace w' =
    (trace w ++ sensing drv h target ++
     [Arrival uid;
      Logged ERROR ("Error reading from NFC reader: " ++ exn_msg e)])%list /\
  current_uid (self w') = Some uid /\
  nth_error (threads w') t = Some InLoop /\
  forall drvs,
    Forall (fun d => sensed_identity d h = Some uid) drvs ->
    arrivals (trace (polling t drvs w')) = arrivals (trace w').
Proof.
  intros Hth Hrun Hclf Hcb Hsense Hres Hne Hcur Hraise w'.
  assert (Hbody := @body_fires C w drv h target uid cb c' (Raises e)
                     Hclf Hsense Hres Hne Hcur Hcb Hraise).
  assert (Hw' : w' = fst (_reader_loop_body drv w))
    by apply (@step_in_loop C t w drv Hth Hrun).
  rewrite Hbody in *. cbn [fst snd] in *.
  split; [reflexivity|].
  split; [now rewrite Hw'|].
  split; [now rewrite Hw'|].
  split; [now rewrite Hw'|].
  intros drvs Hall.
  apply (@polling_same_identity C t h uid drvs w'); trivial;
    rewrite Hw'; trivial.
Qed.

End Claims.

(** * The specification at sample inputs *)

Section Witnesses.

Import Sample.

(** Scenario 2: the application answers AABBCCDD 90 00. *)
Lemma select_then_custom_identity_witness :
  transmissions
    (fst (_extract_uid (phone_present (Returns answer)) (Some reader) handset []))
  = [select_aid_apdu] /\
  exists body,
    answer = (body ++ [x90; x00])%list /\
    snd (_extract_uid (phone_present (Returns answer)) (Some reader) handset [])
    = Returns (upper (hex body)) /\
    uppercase_hex (upper (hex body)) = true /\
    fromhex (upper (hex body)) = Returns body.
Proof.
  destruct (@select_then_custom_identity
              (phone_present (Returns answer)) (Some reader) handset
              [x08; x5e; x11; x3a] (app (Returns answer)) []
              eq_refl eq_refl eq_refl)
    as (_ & _ & Htx & Hcustom).
  split; [exact Htx|].
  apply Hcustom; reflexivity.
Defined.

(** Scenario 1: a card that does not activate. *)
Lemma fallback_to_hardware_identity_witness :
  snd (_extract_uid card_present (Some reader) card []) = Returns "04A1B2C3".
Proof.
  apply (@fallback_to_hardware_identity card_present (Some reader) card
           [x04; xa1; xb2; xc3] [] eq_refl).
  eapply activation_raises. reflexivity.
Defined.

(** Scenario 2 in full: the identity resolved is AABBCCDD. *)
Example scenario_2 :
  _extract_uid (phone_present (Returns answer)) (Some reader) handset []
  = ([Activated handset; Transceived select_aid_apdu;
      Logged INFO "Android App found! Custom UID: AABBCCDD"],
     Returns "AABBCCDD").
Proof. reflexivity. Qed.

Lemma resolver_is_total_witness :
  exists uid,
    _extract_uid card_present (Some reader) card []
    = (([] ++ resolver_events card_present (Some reader) card)%list,
       Returns uid) /\
    (falls_back card_present (Some reader) card ->
     uid = upper (hex [x04; xa1; xb2; xc3])).
Proof.
  apply (@resolver_is_total card_present (Some reader) card
           [x04; xa1; xb2; xc3] []).
  reflexivity.
Defined.

(** C5, counterexample.  A Type 1 tag is sensed: its target has no
    anti-collision response, and the resolver raises where it reads
    the hardware identifier, before the first [try], instead of
    returning an identity. *)
Lemma resolver_raises_on_type1_target :
  snd (_extract_uid topaz_present (Some reader) topaz [])
  = Raises (mkExn "AttributeError" "'NoneType' object has no attribute 'hex'") /\
  ~ (exists uid,
       snd (_extract_uid topaz_present (Some reader) topaz []) = Returns uid).
Proof.
  split; [reflexivity|]. intros (uid & H). discriminate.
Qed.


(** Nothing sensed twice in a row after a card: one removal. *)
Lemma removal_fires_once_when_callback_returns_witness :
  removals
    (trace (polling 0 [field_empty; field_empty]
              (in_loop (Some on_card) (Some on_removed) (Some "X1"))))
  <= 1.
Proof.
  destruct (@removal_fires_once_when_callback_returns nat
              (in_loop (Some on_card) (Some on_removed) (Some "X1"))
              field_empty reader on_removed eq_refl eq_refl eq_refl eq_refl)
    as (_ & _ & _ & Hrun).
  apply (Hrun 0 [field_empty] eq_refl eq_refl).
  repeat constructor.
Defined.

(** C4 (removal edge, idempotent absence), at an input where the
    code departs from it.  The removal callback raises: the assignment
    after the call is skipped, so the identity stays held and the next
    iteration without a target invokes the callback again; the arrival
    path records the identity before its call. *)
Lemma removal_refires_when_callback_raises :
  let w := in_loop (Some on_card) (Some on_removed_failing) (Some "X1") in
  let w1 := fst (_reader_loop_body field_empty w) in
  let w2 := fst (_reader_loop_body field_empty w1) in
  ~ current_uid (self w1) = None /\
  ~ removals (trace w2) <= S (removals (trace w)) /\
  removals (trace (polling 0 [field_empty; field_empty] w)) = 2.
Proof.
  vm_compute. repeat split; try discriminate. lia.
Qed.





(** [stop] while a card is held, the thread taking one more step
    during the wait; then [stop] again. *)
Lemma stop_closes_and_is_idempotent_witness :
  let w := polling 0 [card_present; card_present] (fst (start fresh)) in
  let w1 := fst (stop [(0, card_present)] w) in
  clf (self w) = Some reader /\
  In (Closed reader) (trace w1) /\
  clf (self w1) = None /\
  is_connected (fst (stop [] w1)) = false.
Proof.
  destruct (@stop_closes_and_is_idempotent nat
              (polling 0 [card_present; card_present] (fst (start fresh)))
              [(0, card_present)] [])
    as (_ & Hclf & _ & _ & _ & Hconn & Hclosed & _).
  split; [reflexivity|]. split; [exact (Hclosed reader eq_refl)|].
  split; [exact Hclf | exact Hconn].
Defined.

Lemma bare_status_word_is_ignored_witness :
  let w := in_loop (Some on_card) (Some on_removed) None in
  let drv := phone_present (Returns [x90; x00]) in
  resolved drv (Some reader) handset = Returns "" /\
  arrivals (trace (fst (_reader_loop_body drv w))) = [] /\
  current_uid (self (fst (_reader_loop_body drv w))) = None.
Proof.
  destruct (@bare_status_word_is_ignored nat
              (in_loop (Some on_card) (Some on_removed) None)
              (phone_present (Returns [x90; x00])) reader handset
              [x08; x5e; x11; x3a] (app (Returns [x90; x00]))
              eq_refl eq_refl eq_refl eq_refl eq_refl eq_refl)
    as (Hres & Ha & _ & Hself & _).
  split; [exact Hres|]. split; [exact Ha|].
  exact (f_equal (@current_uid nat) Hself).
Defined.

Lemma failing_arrival_callback_is_not_retried_witness :
  let w := in_loop (Some on_card_failing) (Some on_removed) None in
  let w' := _reader_loop_step 0 card_present w in
  current_uid (self w') = Some "04A1B2C3" /\
  nth_error (threads w') 0 = Some InLoop /\
  arrivals (trace (polling 0 [card_present; card_present] w'))
  = arrivals (trace w').
Proof.
  destruct (@failing_arrival_callback_is_not_retried nat
              (in_loop (Some on_card_failing) (Some on_removed) None)
              0 card_present reader on_card_failing card "04A1B2C3" 0
              (mkExn "ConnectionError" "server unreachable")
              eq_refl eq_refl eq_refl eq_refl eq_refl eq_refl
              (fun H => eq_ind "04A1B2C3"
                          (fun s => match s with
                                    | EmptyString => False
                                    | String _ _ => True
                                    end) I "" H)
              (fun H => eq_ind None
                          (fun o => match o with
                                    | None => True
                                    | Some _ => False
                                    end) I (Some "04A1B2C3") H)
              eq_refl)
    as (_ & _ & Hcur & Hth & Hquiet).
  split; [exact Hcur|]. split; [exact Hth|].
  apply Hquiet. repeat constructor.
Defined.

(** Scenario 3: the senses [A, A, None, None, A] give arrival,
    removal, arrival. *)
Example scenario_3 :
  let w := polling 0
             [card_present; card_present; field_empty; field_empty; card_present]
             (in_loop (Some on_card) (Some on_removed) None) in
  arrivals (trace w) = ["04A1B2C3"; "04A1B2C3"] /\
  removals (trace w) = 1 /\
  consumer w = 3.
Proof. repeat split. Qed.

(** Scenario 4: [start], then [stop] before the thread has run. *)
Example scenario_4 :
  let w := fst (stop [] (fst (start fresh))) in
  arrivals (trace w) = [] /\ removals (trace w) = 0 /\
  clf (self w) = None /\ is_connected w = false.
Proof. repeat split. Qed.

End Witnesses.

(** * Further properties of the reader *)

(** ** Call histories *)

Lemma calls_app (a b : Trace) : calls (a ++ b)%list = (calls a ++ calls b)%list.
Proof.
  induction a as [|ev a IH]; [reflexivity|].
  destruct ev; simpl; rewrite IH; reflexivity.
Qed.

Lemma arrivals_calls (t : Trace) uid :
  In uid (arrivals t) <-> In (Arrived uid) (calls t).
Proof.
  induction t as [|ev t IH]; [reflexivity|].
  destruct ev; simpl; rewrite ?IH; try reflexivity.
  - split; (intros [H|H]; [left; congruence | right; exact H]).
  - split; [auto | intros [H|H]; [discriminate | exact H]].
Qed.

Lemma alternating_snoc c : forall cs prev,
  alternating prev (cs ++ [c]) =
  alternating prev cs && may_follow (last_call prev cs) c.
Proof.
  induction cs as [|x cs IH]; intros prev; simpl.
  - apply andb_true_r.
  - rewrite IH. apply andb_assoc.
Qed.

Lemma last_call_snoc c : forall cs prev, last_call prev (cs ++ [c]) = Some c.
Proof.
  induction cs as [|x cs IH]; intros prev; simpl; auto.
Qed.

(** In an alternating history every removal has its own arrival. *)
Lemma alternating_counts : forall cs prev,
  alternating prev cs = true ->
  List.length (filter (fun c => match c with Removed => true | _ => false end) cs)
  <= List.length (filter (fun c => match c with Arrived _ => true | _ => false end) cs)
     + match prev with Some (Arrived _) => 1 | _ => 0 end.
Proof.
  induction cs as [|c cs IH]; intros prev Halt; simpl in *; [lia|].
  apply andb_prop in Halt. destruct Halt as [Hfollow Halt].
  specialize (IH (Some c) Halt).
  destruct c as [u|]; simpl in *.
  - lia.
  - destruct prev as [[v|]|]; try discriminate. lia.
Qed.

Lemma removals_calls (t : Trace) :
  removals t =
  List.length (filter (fun c => match c with Removed => true | _ => false end)
                 (calls t)).
Proof.
  induction t as [|ev t IH]; [reflexivity|].
  destruct ev; simpl; rewrite ?IH; reflexivity.
Qed.

Lemma arrivals_length_calls (t : Trace) :
  List.length (arrivals t) =
  List.length (filter (fun c => match c with Arrived _ => true | _ => false end)
                 (calls t)).
Proof.
  induction t as [|ev t IH]; [reflexivity|].
  destruct ev; simpl; rewrite ?IH; reflexivity.
Qed.

(** ** The resolver, again *)

Lemma length_upper_hex bs : String.length (upper (hex bs)) = 2 * List.length bs.
Proof.
  induction bs as [|b bs IH]; [reflexivity|].
  destruct (upper_hex_cons b bs) as (c1 & c2 & -> & _).
  simpl. rewrite IH. lia.
Qed.

Lemma resolver_calls drv c target : calls (resolver_events drv c target) = [].
Proof.
  run_resolver.
  destruct (hardware_uid target) as [hw_uid|e0]; simpl; auto.
  destruct (activate drv c target) as [[tag|]|e]; simpl; auto.
  destruct (String.eqb (type tag) "Type4Tag"); simpl; auto.
  destruct (transceive tag _) as [response|e]; simpl; auto.
  destruct (truthy_bytes response); simpl; auto.
  destruct (endswith response _); simpl; auto.
Qed.

Lemma sensing_calls drv h target : calls (sensing drv h target) = [].
Proof.
  unfold sensing. simpl. apply resolver_calls.
Qed.

Lemma sensing_opens drv h target : opens (sensing drv h target) = 0.
Proof.
  unfold sensing. simpl. apply resolver_no_callbacks.
Qed.

(** The identity is the hexadecimal text of the hardware identifier or
    of the body of the application's answer. *)
Lemma resolver_format drv c target hw :
  sdd_res target = Some hw ->
  exists bs,
    resolved drv c target = Returns (upper (hex bs)) /\
    (bs = hw \/
     exists tag,
       activate drv c target = Returns (Some tag) /\
       type tag = "Type4Tag" /\
       transceive tag select_aid_apdu = Returns (bs ++ status_ok)%list).
Proof.
  intros Hsdd.
  destruct (resolver_cases drv c target) as [Hfb | (tag & body & Hact & Hty & Htx)].
  - exists hw. split; [apply (resolver_fallback Hsdd Hfb) | now left].
  - exists body. split; [|right; exists tag; auto].
    destruct (resolver_custom _ _ _ Hsdd Hact Hty Htx
                (endswith_app body status_ok))
      as (Hres & _).
    rewrite Hres. do 3 f_equal. apply (drop_last_app body status_ok).
Qed.

Lemma resolver_never_transmits drv c target :
  sdd_res target = None \/
  (forall tag, activate drv c target = Returns (Some tag) ->
               type tag <> "Type4Tag") ->
  transmissions (resolver_events drv c target) = [].
Proof.
  intros Hno. run_resolver. unfold hardware_uid.
  destruct (sdd_res target) as [hw|]; simpl; [|reflexivity].
  destruct Hno as [Hno|Hno]; [discriminate|].
  destruct (activate drv c target) as [[tag|]|e] eqn:Hact; simpl; auto.
  specialize (Hno tag eq_refl). apply String.eqb_neq in Hno.
  rewrite Hno. reflexivity.
Qed.

Lemma endswith_short (b suffix : bytes) :
  List.length b < List.length suffix -> endswith b suffix = false.
Proof.
  intros Hlt. unfold endswith.
  destruct (Nat.leb_spec (List.length suffix) (List.length b)); [lia|reflexivity].
Qed.

Ltac run_method :=
  cbv beta iota delta
    [_reader_loop_body clf_sense connect disconnect start stop
     Thread_start Thread_join bind try_except call get modify ret raise
     zoom on_self on_trace on_consumer emit logger].

Section Behaviour.

Variable C : Type.
Implicit Types (w : World C) (drv : Driver).

(** ** The loop body when sensing fails *)

Lemma body_null_handle w drv :
  clf (self w) = None ->
  _reader_loop_body drv w =
    (add_events
       [Logged ERROR ("Error reading from NFC reader: "
                      ++ "'NoneType' object has no attribute 'sense'")] w,
     Returns tt).
Proof.
  intros Hclf. run_method. rewrite Hclf. reflexivity.
Qed.

Lemma body_sense_raises w drv h e :
  clf (self w) = Some h ->
  sense drv h = Raises e ->
  _reader_loop_body drv w =
    (add_events
       [Sensed h; Logged ERROR ("Error reading from NFC reader: " ++ exn_msg e)] w,
     Returns tt).
Proof.
  intros Hclf Hsense. run_method. rewrite Hclf. simpl. rewrite Hsense. simpl.
  unfold add_events. rewrite <- app_assoc. reflexivity.
Qed.

Lemma body_resolver_raises w drv h target e :
  clf (self w) = Some h ->
  sense drv h = Returns (Some target) ->
  resolved drv (Some h) target = Raises e ->
  _reader_loop_body drv w =
    (add_events
       (sensing drv h target ++
        [Logged ERROR ("Error reading from NFC reader: " ++ exn_msg e)])%list w,
     Returns tt).
Proof.
  intros Hclf Hsense Hres.
  run_method. rewrite Hclf. simpl. rewrite Hsense. simpl. rewrite Hclf.
  rewrite _extract_uid_trace, Hres. simpl.
  unfold add_events, sensing. simpl. rewrite <- !app_assoc. reflexivity.
Qed.

(** What the resolver returns is the text of some bytes. *)
Lemma resolver_returns_hex drv c target uid :
  resolved drv c target = Returns uid -> exists bs, uid = upper (hex bs).
Proof.
  intros Hres. destruct (sdd_res target) as [hw|] eqn:Hsdd.
  - destruct (@resolver_format drv c target hw Hsdd) as (bs & Hbs & _).
    exists bs. congruence.
  - destruct (@resolver_raises drv c target Hsdd) as (Hraise & _). congruence.
Qed.

(** ** What one iteration does to the session *)

Lemma body_effect w drv :
  exists evs,
    trace (fst (_reader_loop_body drv w)) = (trace w ++ evs)%list /\
    opens evs = 0 /\
    effect w (fst (_reader_loop_body drv w)) evs.
Proof.
  destruct (clf (self w)) as [h|] eqn:Hclf.
  2:{ rewrite (@body_null_handle w drv Hclf). eexists.
      split; [reflexivity|]. split; [reflexivity|]. now apply quiet. }
  destruct (sense drv h) as [[target|]|e] eqn:Hsense.
  - destruct (resolved drv (Some h) target) as [uid|e] eqn:Hres.
    2:{ rewrite (@body_resolver_raises w drv h target e Hclf Hsense Hres).
        eexists. split; [reflexivity|].
        split; [rewrite opens_app, sensing_opens; reflexivity|].
        apply quiet; trivial. rewrite calls_app, sensing_calls. reflexivity. }
    destruct (@resolver_returns_hex drv (Some h) target uid Hres) as (bs & ->).
    destruct (string_dec (upper (hex bs)) "") as [Hempty|Hne].
    { rewrite (@body_silent C w drv h target _ Hclf Hsense Hres (or_introl Hempty)).
      eexists. split; [reflexivity|]. split; [apply sensing_opens|].
      apply quiet; trivial. apply sensing_calls. }
    destruct (current_uid (self w)) as [cur|] eqn:Hcur.
    + destruct (string_dec cur (upper (hex bs))) as [->|Hdiff].
      { rewrite (@body_silent C w drv h target _ Hclf Hsense Hres (or_intror Hcur)).
        eexists. split; [reflexivity|]. split; [apply sensing_opens|].
        apply quiet; trivial. apply sensing_calls. }
      assert (Hnew : current_uid (self w) <> Some (upper (hex bs))) by congruence.
      destruct (card_callback (self w)) as [cb|] eqn:Hcb.
      * destruct (cb (upper (hex bs)) (consumer w)) as [c' o] eqn:Hrun.
        rewrite (@body_fires C w drv h target _ cb c' o
                   Hclf Hsense Hres Hne Hnew Hcb Hrun).
        eexists. split; [reflexivity|].
        split; [rewrite opens_app, sensing_opens; destruct o; reflexivity|].
        eapply arrived; eauto. rewrite Hcb, calls_app, sensing_calls.
        destruct o; reflexivity.
      * rewrite (@body_fires_unregistered C w drv h target _
                   Hclf Hsense Hres Hne Hnew Hcb).
        eexists. split; [reflexivity|].
        split; [rewrite opens_app, sensing_opens; reflexivity|].
        eapply arrived; eauto. rewrite Hcb, calls_app, sensing_calls.
        reflexivity.
    + assert (Hnew : current_uid (self w) <> Some (upper (hex bs))) by congruence.
      destruct (card_callback (self w)) as [cb|] eqn:Hcb.
      * destruct (cb (upper (hex bs)) (consumer w)) as [c' o] eqn:Hrun.
        rewrite (@body_fires C w drv h target _ cb c' o
                   Hclf Hsense Hres Hne Hnew Hcb Hrun).
        eexists. split; [reflexivity|].
        split; [rewrite opens_app, sensing_opens; destruct o; reflexivity|].
        eapply arrived; eauto. rewrite Hcb, calls_app, sensing_calls.
        destruct o; reflexivity.
      * rewrite (@body_fires_unregistered C w drv h target _
                   Hclf Hsense Hres Hne Hnew Hcb).
        eexists. split; [reflexivity|].
        split; [rewrite opens_app, sensing_opens; reflexivity|].
        eapply arrived; eauto. rewrite Hcb, calls_app, sensing_calls.
        reflexivity.
  - destruct (current_uid (self w)) as [cur|] eqn:Hcur.
    + destruct (card_removed_callback (self w)) as [cb|] eqn:Hcb.
      * destruct (cb (consumer w)) as [c' o] eqn:Hrun.
        rewrite (@body_removes C w drv h cur cb c' o Hclf Hsense Hcur Hcb Hrun).
        eexists. split; [reflexivity|].
        split; [destruct o; reflexivity|].
        apply removed with (cur := cur); [exact Hcur|].
        rewrite Hcb, Hrun. destruct o; simpl; auto.
      * rewrite (@body_removes_unregistered C w drv h cur Hclf Hsense Hcur Hcb).
        eexists. split; [reflexivity|]. split; [reflexivity|].
        apply removed with (cur := cur); [exact Hcur|].
        rewrite Hcb. simpl. auto.
    + rewrite (@body_idle C w drv h Hclf Hsense Hcur).
      eexists. split; [reflexivity|]. split; [reflexivity|]. now apply quiet.
  - rewrite (@body_sense_raises w drv h e Hclf Hsense).
    eexists. split; [reflexivity|]. split; [reflexivity|]. now apply quiet.
Qed.

(** ** What [connect] and a thread step do to the session *)

Lemma connect_success w drv h :
  nfc w = true ->
  ContactlessFrontend drv (port (self w)) = Returns h ->
  connect drv w =
    (mkWorld (nfc w) (set_clf (Some h) (self w)) (consumer w) (threads w)
       (trace w ++
        [Opening (port (self w));
         Logged INFO ("Connected to NFC reader on " ++ port (self w))])%list,
     Returns true).
Proof.
  intros Hnfc Hopen. run_method. simpl.
  replace (negb (nfc w)) with false by now rewrite Hnfc.
  rewrite Hopen. simpl. rewrite <- app_assoc. reflexivity.
Qed.

Lemma connect_events w drv :
  exists evs,
    trace (fst (connect drv w)) = (trace w ++ evs)%list /\
    calls evs = [] /\
    opens evs <= 1 /\
    (nfc w = false -> opens evs = 0).
Proof.
  run_method. destruct (nfc w); simpl.
  - destruct (ContactlessFrontend drv (port (self w))) as [h|e]; simpl;
      rewrite <- app_assoc; eexists; (split; [reflexivity|]);
      simpl; repeat split; auto; discriminate.
  - eexists. split; [reflexivity|]. simpl. auto.
Qed.

Lemma step_effect t drv w :
  exists evs,
    trace (_reader_loop_step t drv w) = (trace w ++ evs)%list /\
    effect w (_reader_loop_step t drv w) evs.
Proof.
  unfold _reader_loop_step.
  destruct (nth_error (threads w) t) as [[| |]|].
  - destruct (connect_events w drv) as (evs & Htr & Hcalls & _).
    destruct (connect_frame w drv) as ((b & Hb) & _ & _ & Hcons & Hcur & _).
    destruct (connect drv w) as [w' o]. simpl in *. subst o.
    exists evs. destruct b; simpl; (split; [exact Htr | now apply quiet]).
  - destruct (running (self w)).
    + destruct (body_frame w drv) as (Hb & _).
      destruct (body_effect w drv) as (evs & Htr & _ & Heff).
      destruct (_reader_loop_body drv w) as [w' o]. simpl in *. subst o.
      eauto.
    + exists []. simpl. rewrite app_nil_r. split; [reflexivity | now apply quiet].
  - exists []. rewrite app_nil_r. split; [reflexivity | now apply quiet].
  - exists []. rewrite app_nil_r. split; [reflexivity | now apply quiet].
Qed.

(** How the phase of a thread and the count of opens move in one
    step. *)
Lemma step_phase t drv w :
  match nth_error (threads w) t with
  | Some AtEntry =>
      opens (trace (_reader_loop_step t drv w)) <= S (opens (trace w)) /\
      (nth_error (threads (_reader_loop_step t drv w)) t = Some InLoop \/
       nth_error (threads (_reader_loop_step t drv w)) t = Some Exited)
  | Some InLoop =>
      opens (trace (_reader_loop_step t drv w)) = opens (trace w) /\
      (nth_error (threads (_reader_loop_step t drv w)) t = Some InLoop \/
       nth_error (threads (_reader_loop_step t drv w)) t = Some Exited)
  | _ => _reader_loop_step t drv w = w
  end.
Proof.
  unfold _reader_loop_step.
  destruct (nth_error (threads w) t) as [[| |]|] eqn:Hth; trivial.
  - destruct (connect_events w drv) as (evs & Htr & _ & Hopens & _).
    destruct (connect_frame w drv) as ((b & Hb) & _ & Hthreads & _).
    destruct (connect drv w) as [w' o]. simpl in *. subst o.
    rewrite <- Hthreads in Hth.
    destruct b; simpl; rewrite Htr, opens_app;
      (split; [lia|]); [left|right]; eapply set_nth_same; eassumption.
  - destruct (running (self w)).
    + destruct (body_frame w drv) as (Hb & _ & Hthreads & _).
      destruct (body_effect w drv) as (evs & Htr & Hopens & _).
      destruct (_reader_loop_body drv w) as [w' o]. simpl in *. subst o.
      rewrite Htr, opens_app, Hopens, Hthreads. split; [lia | now left].
    + simpl. split; [reflexivity|]. right. eapply set_nth_same; eassumption.
Qed.

(** ** Invariants of every history *)

Section Preservation.

Variable Inv : World C -> Prop.

Hypothesis Inv_effect : forall w w' evs,
  Inv w ->
  card_callback (self w') = card_callback (self w) ->
  card_removed_callback (self w') = card_removed_callback (self w) ->
  trace w' = (trace w ++ evs)%list ->
  effect w w' evs ->
  Inv w'.

Lemma step_preserves t drv w : Inv w -> Inv (_reader_loop_step t drv w).
Proof.
  intros HI.
  destruct (step_effect t drv w) as (evs & Htr & Heff).
  destruct (step_frame t w drv) as (_ & _ & Hcb & Hrcb & _).
  eapply Inv_effect; eassumption.
Qed.

Lemma schedule_preserves steps : forall w, Inv w -> Inv (schedule steps w).
Proof.
  unfold schedule.
  induction steps as [|[t drv] steps IH]; intros w HI; simpl; [exact HI|].
  apply IH. now apply step_preserves.
Qed.

Lemma start_preserves w : Inv w -> Inv (fst (start w)).
Proof.
  intros HI. destruct (running (self w)) eqn:Hrun.
  - now rewrite (start_running _ Hrun).
  - rewrite (start_stopped _ Hrun). simpl.
    eapply Inv_effect; [exact HI | reflexivity | reflexivity | reflexivity |].
    now apply quiet.
Qed.

Lemma stop_preserves during_join w : Inv w -> Inv (fst (stop during_join w)).
Proof.
  intros HI. rewrite stop_unfold. simpl.
  assert (H1 : Inv (mkWorld (nfc w) (set_running false (self w)) (consumer w)
                      (threads w) (trace w))).
  { eapply Inv_effect with (evs := []);
      [exact HI | reflexivity | reflexivity | simpl; now rewrite app_nil_r |].
    now apply quiet. }
  assert (H2 : Inv (joined during_join w)).
  { unfold joined. destruct (reader_thread (self w)); [|exact H1].
    now apply schedule_preserves. }
  assert (H3 : Inv (fst (disconnect (joined during_join w)))).
  { destruct (clf (self (joined during_join w))) as [h|] eqn:Hclf.
    - rewrite (@disconnect_open C _ h Hclf). simpl.
      eapply Inv_effect; [exact H2 | reflexivity | reflexivity | reflexivity |].
      now apply quiet.
    - now rewrite (@disconnect_closed C _ Hclf). }
  eapply Inv_effect; [exact H3 | reflexivity | reflexivity | reflexivity |].
  now apply quiet.
Qed.

Lemma history_preserves acts : forall w, Inv w -> Inv (history acts w).
Proof.
  unfold history.
  induction acts as [|a acts IH]; intros w HI; simpl; [exact HI|].
  apply IH. destruct a as [|during_join|t drv]; simpl.
  - now apply start_preserves.
  - now apply stop_preserves.
  - now apply step_preserves.
Qed.

End Preservation.

Lemma identities_well_formed_effect w w' evs :
  identities_well_formed w ->
  card_callback (self w') = card_callback (self w) ->
  card_removed_callback (self w') = card_removed_callback (self w) ->
  trace w' = (trace w ++ evs)%list ->
  effect w w' evs ->
  identities_well_formed w'.
Proof.
  unfold identities_well_formed.
  intros (Hcalls & Hheld) _ _ Htr Heff. rewrite Htr, calls_app.
  destruct Heff as [Hquiet Hcur _ | uid bs Hne Hfmt _ Hcur Hev | cur Hcur Hev].
  - rewrite Hquiet, app_nil_r, Hcur. auto.
  - assert (Hwf : well_formed_identity uid) by (split; eauto).
    rewrite Hcur. split.
    + intros u Hin. apply in_app_or in Hin. destruct Hin as [Hin|Hin]; [auto|].
      rewrite Hev in Hin. destruct (card_callback (self w)); simpl in Hin;
        [|contradiction].
      destruct Hin as [[= <-]|[]]. exact Hwf.
    + intros u [= <-]. exact Hwf.
  - assert (Hkept : forall u, In (Arrived u) (calls (trace w) ++ calls evs) ->
                              well_formed_identity u).
    { intros u Hin. apply in_app_or in Hin. destruct Hin as [Hin|Hin]; [auto|].
      destruct (card_removed_callback (self w)) as [cb|];
        destruct Hev as (Hev & _); rewrite Hev in Hin; simpl in Hin.
      - destruct Hin as [Hin|[]]. discriminate.
      - contradiction. }
    split; [exact Hkept|].
    destruct (card_removed_callback (self w)) as [cb|];
      destruct Hev as (_ & Hev).
    + destruct (snd (cb (consumer w))); rewrite Hev; [discriminate|].
      intros u [= <-]. auto.
    + rewrite Hev. discriminate.
Qed.

Lemma edges_only_effect cb rcb w w' evs :
  (forall c, snd (rcb c) = Returns tt) ->
  edges_only cb rcb w ->
  card_callback (self w') = card_callback (self w) ->
  card_removed_callback (self w') = card_removed_callback (self w) ->
  trace w' = (trace w ++ evs)%list ->
  effect w w' evs ->
  edges_only cb rcb w'.
Proof.
  unfold edges_only.
  intros Hreturns (Hcb & Hrcb & Halt & Hlast) Hcb' Hrcb' Htr Heff.
  rewrite Hcb', Hrcb', Htr, calls_app.
  split; [exact Hcb|]. split; [exact Hrcb|].
  destruct Heff as [Hquiet Hcur _ | uid bs Hne Hfmt Hnew Hcur Hev | cur Hcur Hev].
  - rewrite Hquiet, app_nil_r, Hcur. auto.
  - rewrite Hcb in Hev. rewrite Hev, Hcur, alternating_snoc, last_call_snoc, Halt.
    split; [|reflexivity]. simpl.
    destruct (last_call None (calls (trace w))) as [[v|]|] eqn:Hl; trivial.
    destruct (current_uid (self w)) as [u|].
    + injection Hlast as ->. apply negb_true_iff, String.eqb_neq. congruence.
    + now specialize (Hlast v).
  - rewrite Hrcb in Hev. destruct Hev as (Hev & Hcur').
    rewrite (Hreturns (consumer w)) in Hcur'.
    rewrite Hev, Hcur', alternating_snoc, last_call_snoc, Halt.
    rewrite Hcur in Hlast. rewrite Hlast. simpl. split; [reflexivity|].
    discriminate.
Qed.

End Behaviour.

(** ** The resolver: transmissions and the form of the identity *)

(** X12.  The resolver sends at most one command, the select command,
    and it sends it exactly when the target carries a hardware
    identifier and activates as a tag of type "Type4Tag". *)
Theorem resolver_sends_at_most_one_command drv c target :
  (transmissions (resolver_events drv c target) = [] \/
   transmissions (resolver_events drv c target) = [select_aid_apdu]) /\
  (transmissions (resolver_events drv c target) = [select_aid_apdu] <->
   (exists hw, sdd_res target = Some hw) /\
   exists tag, activate drv c target = Returns (Some tag) /\
               type tag = "Type4Tag").
Proof.
  destruct (sdd_res target) as [hw|] eqn:Hsdd.
  2:{ rewrite resolver_never_transmits by now left.
      split; [now left|]. split; [discriminate|].
      intros ((hw & Hhw) & _). discriminate. }
  destruct (activate drv c target) as [[tag|]|e] eqn:Hact.
  - destruct (String.eqb_spec (type tag) "Type4Tag") as [Hty|Hty].
    + rewrite (resolver_transmits _ _ _ Hsdd Hact Hty).
      split; [now right|]. split; [eauto | reflexivity].
    + rewrite resolver_never_transmits
        by (right; intros tag' Htag'; rewrite Hact in Htag'; congruence).
      split; [now left|]. split; [discriminate|].
      intros (_ & tag' & [= <-] & Hty'). contradiction.
  - rewrite resolver_never_transmits
      by (right; intros tag' Htag'; rewrite Hact in Htag'; discriminate).
    split; [now left|]. split; [discriminate|].
    intros (_ & tag' & Htag' & _). discriminate.
  - rewrite resolver_never_transmits
      by (right; intros tag' Htag'; rewrite Hact in Htag'; discriminate).
    split; [now left|]. split; [discriminate|].
    intros (_ & tag' & Htag' & _). discriminate.
Qed.

(** X13.  For a target with the hardware identifier [hw], whatever the
    driver does, the identity returned is the uppercase hexadecimal
    text, two digits a byte, of [hw] or of the application's answer
    without its status word; [fromhex] reads the bytes back. *)
Theorem identity_is_hex_of_uid_bytes drv c target hw tr :
  sdd_res target = Some hw ->
  exists bs,
    snd (_extract_uid drv c target tr) = Returns (upper (hex bs)) /\
    uppercase_hex (upper (hex bs)) = true /\
    String.length (upper (hex bs)) = 2 * List.length bs /\
    fromhex (upper (hex bs)) = Returns bs /\
    (bs = hw \/
     exists tag,
       activate drv c target = Returns (Some tag) /\
       type tag = "Type4Tag" /\
       transceive tag select_aid_apdu = Returns (bs ++ [x90; x00])%list).
Proof.
  intros Hsdd.
  destruct (@resolver_format drv c target hw Hsdd) as (bs & Hres & Hfrom).
  exists bs. rewrite _extract_uid_trace. simpl.
  split; [exact Hres|]. split; [apply upper_hex_uppercase|].
  split; [apply length_upper_hex|]. split; [apply fromhex_upper_hex|].
  exact Hfrom.
Qed.

(** X14.  An answer of fewer than two bytes (empty, or a single byte)
    cannot carry the status word: the resolver returns the hardware
    identifier. *)
Theorem short_response_falls_back drv c target hw tag response tr :
  sdd_res target = Some hw ->
  activate drv c target = Returns (Some tag) ->
  type tag = "Type4Tag" ->
  transceive tag select_aid_apdu = Returns response ->
  List.length response < 2 ->
  snd (_extract_uid drv c target tr) = Returns (upper (hex hw)).
Proof.
  intros Hsdd Hact Hty Htx Hshort. rewrite _extract_uid_trace. simpl.
  apply (resolver_fallback Hsdd).
  eapply status_fails; try eassumption.
  now apply endswith_short.
Qed.

Section Extras.

Variable C : Type.
Implicit Types (w : World C) (drv : Driver).

(** ** [connect], [start], [stop] *)

(** X1.  [connect] never raises.  It returns [True] exactly when nfcpy
    is installed and the constructor returns a handle, which is then
    stored in [self.clf]; otherwise it returns [False] and leaves the
    reader as it was.  Without nfcpy the driver is not called. *)
Theorem connect_tells_whether_open w drv :
  snd (connect drv w) = Returns (negb (open_fails drv w)) /\
  (open_fails drv w = false ->
   exists h, ContactlessFrontend drv (port (self w)) = Returns h /\
             clf (self (fst (connect drv w))) = Some h) /\
  (open_fails drv w = true -> self (fst (connect drv w)) = self w) /\
  (nfc w = false -> opens (trace (fst (connect drv w))) = opens (trace w)).
Proof.
  assert (Hfail : open_fails drv w = true ->
                  snd (connect drv w) = Returns false /\
                  self (fst (connect drv w)) = self w).
  { intros Hf. destruct (connect_failure _ _ Hf) as (evs & -> & _). auto. }
  split; [|split; [|split]].
  - destruct (open_fails drv w) eqn:Hf; [now apply Hfail|].
    unfold open_fails in Hf. apply orb_false_elim in Hf. destruct Hf as [Hn Hopen].
    apply negb_false_iff in Hn.
    destruct (ContactlessFrontend drv (port (self w))) as [h|e] eqn:Hh;
      [|discriminate].
    now rewrite (connect_success w drv Hn Hh).
  - intros Hf. unfold open_fails in Hf. apply orb_false_elim in Hf.
    destruct Hf as [Hn Hopen]. apply negb_false_iff in Hn.
    destruct (ContactlessFrontend drv (port (self w))) as [h|e] eqn:Hh;
      [|discriminate].
    exists h. now rewrite (connect_success w drv Hn Hh).
  - intros Hf. now apply Hfail.
  - intros Hn. destruct (connect_events w drv) as (evs & -> & _ & _ & H0).
    rewrite opens_app, (H0 Hn). lia.
Qed.

(** X2.  [start] on a running reader does nothing, so calling [start]
    twice creates one thread: a stopped reader gets exactly one new
    thread, at the entry of [_reader_loop], and the running flag is
    set. *)
Theorem start_is_idempotent w :
  start (fst (start w)) = (fst (start w), Returns tt) /\
  running (self (fst (start w))) = true /\
  (running (self w) = false ->
   threads (fst (start w)) = (threads w ++ [AtEntry])%list /\
   reader_thread (self (fst (start w))) = Some (List.length (threads w))) /\
  (running (self w) = true -> fst (start w) = w).
Proof.
  assert (Hset : running (self (fst (start w))) = true).
  { destruct (running (self w)) eqn:Hrun.
    - now rewrite (start_running _ Hrun).
    - now rewrite (start_stopped _ Hrun). }
  split; [now apply start_running|]. split; [exact Hset|]. split.
  - intros Hrun. now rewrite (start_stopped _ Hrun).
  - intros Hrun. now rewrite (start_running _ Hrun).
Qed.


(** X4.  [stop] on a reader that was never started (no thread, no
    handle) waits for nothing and closes nothing: it clears the flag
    and logs. *)
Theorem stop_before_start_only_logs w during_join :
  reader_thread (self w) = None ->
  clf (self w) = None ->
  stop during_join w =
    (mkWorld (nfc w) (set_running false (self w)) (consumer w) (threads w)
       (trace w ++ [Logged INFO "NFC reader stopped"])%list,
     Returns tt).
Proof.
  intros Hthread Hclf. rewrite stop_unfold. unfold joined. rewrite Hthread.
  rewrite disconnect_closed by exact Hclf. reflexivity.
Qed.

(** X21.  On a stopped reader, [start] followed by the first step of
    the new thread with a driver that opens makes [is_connected] true
    and brings the thread into the loop; no callback has been invoked
    by then. *)
Theorem start_then_open_connects w drv :
  running (self w) = false ->
  open_fails drv w = false ->
  let t := List.length (threads w) in
  let w' := _reader_loop_step t drv (fst (start w)) in
  is_connected w' = true /\
  nth_error (threads w') t = Some InLoop /\
  calls (trace w') = calls (trace w) /\
  current_uid (self w') = current_uid (self w).
Proof.
  intros Hrun Hopen t w'. unfold w', t.
  rewrite (start_stopped _ Hrun). unfold _reader_loop_step. simpl.
  rewrite nth_error_app2, Nat.sub_diag by lia. simpl.
  unfold open_fails in Hopen. apply orb_false_elim in Hopen.
  destruct Hopen as [Hn Hopen]. apply negb_false_iff in Hn.
  destruct (ContactlessFrontend drv (port (self w))) as [h|e] eqn:Hh;
    [|discriminate].
  rewrite connect_success with (h := h) by (simpl; assumption).
  unfold is_connected. simpl.
  rewrite !calls_app. simpl. rewrite !app_nil_r.
  repeat split.
  clear. induction (threads w) as [|p l IH]; simpl; auto.
Qed.

(** ** The loop *)

(** X5.  Once the running flag is cleared, the next step of a thread
    in the loop leaves the loop without sensing, without invoking a
    callback and without touching the reader; the thread takes no
    step after that. *)
Theorem cleared_flag_ends_the_thread w t drv :
  nth_error (threads w) t = Some InLoop ->
  running (self w) = false ->
  let w' := _reader_loop_step t drv w in
  w' = set_phase t Exited w /\
  nth_error (threads w') t = Some Exited /\
  forall drvs, polling t drvs w' = w'.
Proof.
  intros Hth Hrun w'.
  assert (Hw' : w' = set_phase t Exited w).
  { unfold w', _reader_loop_step. now rewrite Hth, Hrun. }
  assert (Hexit : nth_error (threads w') t = Some Exited).
  { rewrite Hw'. simpl. eapply set_nth_same; eassumption. }
  split; [exact Hw'|]. split; [exact Hexit|].
  intros drvs. now apply polling_exited.
Qed.

(** X6.  A thread that is in the loop while the handle is null, as
    after [stop] has closed the connection under it, does not end: its
    iteration logs the attribute error and changes nothing else. *)
Theorem null_handle_is_logged_each_iteration w t drv :
  nth_error (threads w) t = Some InLoop ->
  running (self w) = true ->
  clf (self w) = None ->
  _reader_loop_step t drv w =
    add_events
      [Logged ERROR ("Error reading from NFC reader: "
                     ++ "'NoneType' object has no attribute 'sense'")] w.
Proof.
  intros Hth Hrun Hclf.
  rewrite (@step_in_loop C t w drv Hth Hrun).
  now rewrite (@body_null_handle C w drv Hclf).
Qed.

(** X7.  An exception raised by [sense] does not end the loop: the
    iteration logs it with its message, invokes no callback and leaves
    the identity held as it was. *)
Theorem sense_error_is_not_fatal w t drv h e :
  nth_error (threads w) t = Some InLoop ->
  running (self w) = true ->
  clf (self w) = Some h ->
  sense drv h = Raises e ->
  let w' := _reader_loop_step t drv w in
  w' = add_events
         [Sensed h; Logged ERROR ("Error reading from NFC reader: " ++ exn_msg e)] w /\
  nth_error (threads w') t = Some InLoop /\
  calls (trace w') = calls (trace w) /\
  current_uid (self w') = current_uid (self w).
Proof.
  intros Hth Hrun Hclf Hsense w'. unfold w'.
  rewrite (@step_in_loop C t w drv Hth Hrun).
  rewrite (@body_sense_raises C w drv h e Hclf Hsense). simpl.
  rewrite calls_app. simpl. rewrite app_nil_r. auto.
Qed.

(** X8.  While the removal callback raises, the identity stays held
    and every iteration that senses nothing invokes the callback
    again: [n] such iterations make [n] removal calls. *)
Theorem failing_removal_callback_is_retried t h cur cb : forall drvs w,
  nth_error (threads w) t = Some InLoop ->
  running (self w) = true ->
  clf (self w) = Some h ->
  current_uid (self w) = Some cur ->
  card_removed_callback (self w) = Some cb ->
  (forall c, exists e, snd (cb c) = Raises e) ->
  Forall (fun drv => senses_nothing drv h = true) drvs ->
  removals (trace (polling t drvs w)) = removals (trace w) + List.length drvs /\
  current_uid (self (polling t drvs w)) = Some cur.
Proof.
  unfold polling.
  induction drvs as [|drv drvs IH];
    intros w Hth Hrun Hclf Hcur Hcb Hraises Hall; simpl; [auto|].
  inversion Hall as [|d ds Hd Hds]; subst.
  apply senses_nothing_inv in Hd.
  rewrite (@step_in_loop C t w drv Hth Hrun).
  destruct (cb (consumer w)) as [c' o] eqn:Hcall.
  destruct (Hraises (consumer w)) as (e & He). rewrite Hcall in He.
  simpl in He. subst o.
  rewrite (@body_removes C w drv h cur cb c' (Raises e) Hclf Hd Hcur Hcb Hcall).
  simpl.
  match goal with
  | |- context [fold_left _ drvs ?x] =>
      destruct (IH x) as (IHr & IHc); trivial
  end.
  rewrite IHr, IHc. simpl. rewrite removals_app. simpl. split; [lia|reflexivity].
Qed.

(** X9.  Without an arrival callback, a new identity is recorded and
    logged all the same; the consumer is not touched and no call is
    made. *)
Theorem arrival_is_recorded_without_callback w drv h target uid :
  clf (self w) = Some h ->
  sense drv h = Returns (Some target) ->
  resolved drv (Some h) target = Returns uid ->
  uid <> "" ->
  current_uid (self w) <> Some uid ->
  card_callback (self w) = None ->
  let w' := fst (_reader_loop_body drv w) in
  current_uid (self w') = Some uid /\
  consumer w' = consumer w /\
  calls (trace w') = calls (trace w) /\
  In (Logged INFO ("Card detected: " ++ uid)) (trace w').
Proof.
  intros Hclf Hsense Hres Hne Hnew Hcb w'. unfold w'.
  rewrite (@body_fires_unregistered C w drv h target uid
             Hclf Hsense Hres Hne Hnew Hcb).
  cbn [fst self consumer trace current_uid set_current_uid].
  split; [reflexivity|]. split; [reflexivity|]. split.
  - rewrite !calls_app, sensing_calls. simpl. now rewrite app_nil_r.
  - apply in_or_app. right. apply in_or_app. right. now left.
Qed.

(** X10.  Without a removal callback, an iteration that senses nothing
    still forgets the identity held; the consumer is not touched and
    no call is made. *)
Theorem removal_is_recorded_without_callback w drv h cur :
  clf (self w) = Some h ->
  sense drv h = Returns None ->
  current_uid (self w) = Some cur ->
  card_removed_callback (self w) = None ->
  let w' := fst (_reader_loop_body drv w) in
  current_uid (self w') = None /\
  consumer w' = consumer w /\
  calls (trace w') = calls (trace w).
Proof.
  intros Hclf Hsense Hcur Hcb w'. unfold w'.
  rewrite (@body_removes_unregistered C w drv h cur Hclf Hsense Hcur Hcb).
  simpl. rewrite calls_app. simpl. rewrite app_nil_r. auto.
Qed.

(** X11.  When another token is sensed while an identity is held, with
    no empty sense in between, the arrival callback is invoked for the
    new identity and the removal callback is not invoked for the old
    one. *)
Theorem token_swap_fires_arrival_only w drv h target uid old cb :
  clf (self w) = Some h ->
  sense drv h = Returns (Some target) ->
  resolved drv (Some h) target = Returns uid ->
  uid <> "" ->
  current_uid (self w) = Some old ->
  old <> uid ->
  card_callback (self w) = Some cb ->
  let w' := fst (_reader_loop_body drv w) in
  calls (trace w') = (calls (trace w) ++ [Arrived uid])%list /\
  removals (trace w') = removals (trace w) /\
  current_uid (self w') = Some uid.
Proof.
  intros Hclf Hsense Hres Hne Hcur Hdiff Hcb w'. unfold w'.
  assert (Hnew : current_uid (self w) <> Some uid) by congruence.
  destruct (cb uid (consumer w)) as [c' o] eqn:Hcall.
  rewrite (@body_fires C w drv h target uid cb c' o
             Hclf Hsense Hres Hne Hnew Hcb Hcall).
  cbn [fst self trace current_uid set_current_uid].
  destruct (sensing_no_callbacks drv h target) as (_ & Hr).
  rewrite !calls_app, !removals_app, sensing_calls, Hr.
  destruct o; simpl; auto.
Qed.

(** X19.  A polling run opens the connection at most once: a thread
    at the entry of [_reader_loop] makes one attempt in its first
    step, and no step after that makes another, however long it
    runs and whatever fails. *)
Theorem run_opens_at_most_once t : forall drvs w,
  opens (trace (polling t drvs w)) <= S (opens (trace w)) /\
  (nth_error (threads w) t <> Some AtEntry ->
   opens (trace (polling t drvs w)) = opens (trace w)).
Proof.
  assert (Hlater : forall drvs w,
            nth_error (threads w) t <> Some AtEntry ->
            opens (trace (polling t drvs w)) = opens (trace w)).
  { unfold polling.
    induction drvs as [|drv drvs IH]; intros w Hth; simpl; [reflexivity|].
    pose proof (step_phase t drv w) as Hstep.
    destruct (nth_error (threads w) t) as [[| |]|] eqn:E;
      try congruence.
    - destruct Hstep as (Hopens & [Hph|Hph]);
        rewrite IH by congruence; exact Hopens.
    - rewrite Hstep. apply IH. congruence.
    - rewrite Hstep. apply IH. congruence. }
  intros drvs w. split; [|apply Hlater].
  destruct drvs as [|drv drvs]; [simpl; lia|].
  change (polling t (drv :: drvs) w)
    with (polling t drvs (_reader_loop_step t drv w)).
  pose proof (step_phase t drv w) as Hstep.
  destruct (nth_error (threads w) t) as [[| |]|] eqn:E.
  - destruct Hstep as (Hopens & [Hph|Hph]);
      rewrite Hlater by congruence; exact Hopens.
  - destruct Hstep as (Hopens & [Hph|Hph]);
      rewrite Hlater by congruence; lia.
  - rewrite Hstep, Hlater by congruence. lia.
  - rewrite Hstep, Hlater by congruence. lia.
Qed.

(** X18.  No step of any thread writes the running flag, the port,
    the callbacks or the reader thread, or adds a thread: only [start]
    and [stop] do. *)
Theorem thread_steps_keep_the_flag steps w :
  running (self (schedule steps w)) = running (self w) /\
  port (self (schedule steps w)) = port (self w) /\
  card_callback (self (schedule steps w)) = card_callback (self w) /\
  card_removed_callback (self (schedule steps w))
    = card_removed_callback (self w) /\
  reader_thread (self (schedule steps w)) = reader_thread (self w) /\
  List.length (threads (schedule steps w)) = List.length (threads w).
Proof.
  destruct (schedule_frame steps w) as (_ & H2 & H3 & H4 & H5 & H6 & H7).
  repeat split; assumption.
Qed.

(** X20.  [stop] does not end a thread that takes no step while [stop]
    waits: after a following [start] the old thread is still in the
    loop beside the new one, finds the flag set again, and goes on
    polling (on a null handle until the new thread has connected). *)
Theorem stale_thread_survives_restart w t :
  nth_error (threads w) t = Some InLoop ->
  let w' := fst (start (fst (stop [] w))) in
  nth_error (threads w') t = Some InLoop /\
  nth_error (threads w') (List.length (threads w)) = Some AtEntry /\
  running (self w') = true /\
  clf (self w') = None /\
  forall drv, _reader_loop_step t drv w' = fst (_reader_loop_body drv w').
Proof.
  intros Hth w'.
  destruct (stop_frame [] w) as (_ & Hclf & Hstopped & Hlen).
  assert (Hthreads : threads (fst (stop [] w)) = threads w).
  { rewrite stop_unfold. simpl.
    destruct (disconnect_frame (joined [] w)) as (_ & _ & _ & ->).
    unfold joined. destruct (reader_thread (self w)); reflexivity. }
  assert (Hw' : threads w' = (threads w ++ [AtEntry])%list /\
                running (self w') = true /\ clf (self w') = None).
  { unfold w'. rewrite (start_stopped _ Hstopped). simpl.
    rewrite Hthreads. auto. }
  destruct Hw' as (Hth' & Hrun' & Hclf').
  assert (Hold : nth_error (threads w') t = Some InLoop).
  { rewrite Hth', nth_error_app1; [exact Hth|].
    apply nth_error_Some. congruence. }
  split; [exact Hold|]. split.
  { rewrite Hth', nth_error_app2, Nat.sub_diag by lia. reflexivity. }
  split; [exact Hrun'|]. split; [exact Hclf'|].
  intros drv. now apply step_in_loop.
Qed.

(** X22.  [stop] neither forgets the identity held nor invokes the
    removal callback.  So when the reader is started again and the
    same token is still in the field, the new run reports no arrival
    for it. *)
Theorem stop_keeps_the_identity w during_join uid :
  current_uid (self (joined during_join w)) = Some uid ->
  let w1 := fst (stop during_join w) in
  current_uid (self w1) = Some uid /\
  calls (trace w1) = calls (trace (joined during_join w)) /\
  forall drv h drvs,
    nfc w1 = true ->
    ContactlessFrontend drv (port (self w1)) = Returns h ->
    Forall (fun d => sensed_identity d h = Some uid) drvs ->
    arrivals (trace (polling (List.length (threads w1)) (drv :: drvs)
                       (fst (start w1))))
    = arrivals (trace w1).
Proof.
  intros Hheld w1.
  destruct (stop_frame during_join w) as (_ & Hclf & Hstopped & _).
  fold w1 in Hclf, Hstopped.
  assert (Hw1 : current_uid (self w1) = Some uid /\
                calls (trace w1) = calls (trace (joined during_join w))).
  { unfold w1. rewrite stop_unfold. simpl.
    destruct (clf (self (joined during_join w))) as [h|] eqn:E.
    - rewrite (@disconnect_open C _ h E). simpl.
      rewrite !calls_app. simpl. rewrite !app_nil_r. auto.
    - rewrite (@disconnect_closed C _ E).
      rewrite calls_app. simpl. rewrite app_nil_r. auto. }
  destruct Hw1 as (Hcur & Hcalls).
  split; [exact Hcur|]. split; [exact Hcalls|].
  intros drv h drvs Hnfc Hopen Hall.
  change (polling (List.length (threads w1)) (drv :: drvs) (fst (start w1)))
    with (polling (List.length (threads w1)) drvs
            (_reader_loop_step (List.length (threads w1)) drv (fst (start w1)))).
  rewrite (start_stopped _ Hstopped). unfold _reader_loop_step. simpl.
  rewrite nth_error_app2, Nat.sub_diag by lia. simpl.
  rewrite connect_success with (h := h) by (simpl; assumption).
  match goal with
  | |- arrivals (trace (polling ?n drvs ?x)) = _ =>
      destruct (@polling_same_identity C n h uid drvs x) as (Ha & _); trivial
  end.
  - simpl. clear. induction (threads w1) as [|p l IH]; simpl; auto.
  - rewrite Ha. simpl. rewrite !arrivals_app. simpl. now rewrite !app_nil_r.
Qed.

(** ** Every history from construction *)

(** X15.  Whatever the owner, the threads and the driver do after
    construction, every identity passed to the arrival callback, and
    the identity held, is non-empty uppercase hexadecimal text of even
    length. *)
Theorem reported_identities_are_hex_text acts installed p
    (cb : option (string -> M C unit)) (rcb : option (M C unit)) (c0 : C) uid :
  let w := history acts (constructed installed p cb rcb c0) in
  In uid (arrivals (trace w)) \/ current_uid (self w) = Some uid ->
  uid <> "" /\
  uppercase_hex uid = true /\
  Nat.even (String.length uid) = true.
Proof.
  intros w Hin.
  assert (Hinv : identities_well_formed w).
  { apply history_preserves with (Inv := @identities_well_formed C).
    - intros; eapply identities_well_formed_effect; eassumption.
    - split; [intros u []|discriminate]. }
  assert (Hwf : well_formed_identity uid).
  { destruct Hinv as (Hcalls & Hheld). destruct Hin as [Hin|Hin]; [|auto].
    apply Hcalls. now apply arrivals_calls. }
  destruct Hwf as (Hne & bs & ->).
  split; [exact Hne|]. split; [apply upper_hex_uppercase|].
  rewrite length_upper_hex. apply Nat.even_spec. now exists (List.length bs).
Qed.

(** X16.  With both callbacks registered and a removal callback that
    returns, the calls made in any history from construction in which
    at most one polling thread is alive at a time report edges only: a
    removal comes right after an arrival, and an arrival never repeats
    the identity of the arrival right before it. *)
Theorem callbacks_report_edges_only acts installed p
    (cb : string -> M C unit) (rcb : M C unit) (c0 : C) :
  (forall c, snd (rcb c) = Returns tt) ->
  single_threaded acts (constructed installed p (Some cb) (Some rcb) c0) = true ->
  edge_triggered
    (calls (trace (history acts
                     (constructed installed p (Some cb) (Some rcb) c0))))
  = true.
Proof.
  intros Hreturns _.
  assert (Hinv : edges_only cb rcb
                   (history acts
                      (constructed installed p (Some cb) (Some rcb) c0))).
  { apply history_preserves with (Inv := edges_only cb rcb).
    - intros; eapply edges_only_effect; eassumption.
    - unfold edges_only. simpl. repeat split. discriminate. }
  apply Hinv.
Qed.

(** X17.  Under the same conditions the removal callback is never
    invoked more often than the arrival callback. *)
Theorem removals_never_outnumber_arrivals acts installed p
    (cb : string -> M C unit) (rcb : M C unit) (c0 : C) :
  (forall c, snd (rcb c) = Returns tt) ->
  single_threaded acts (constructed installed p (Some cb) (Some rcb) c0) = true ->
  let w := history acts (constructed installed p (Some cb) (Some rcb) c0) in
  removals (trace w) <= List.length (arrivals (trace w)).
Proof.
  intros Hreturns _ w.
  assert (Hinv : edges_only cb rcb w).
  { apply history_preserves with (Inv := edges_only cb rcb).
    - intros; eapply edges_only_effect; eassumption.
    - unfold edges_only. simpl. repeat split. discriminate. }
  destruct Hinv as (_ & _ & Halt & _).
  rewrite removals_calls, arrivals_length_calls.
  pose proof (alternating_counts _ _ Halt) as Hle. simpl in Hle. lia.
Qed.

(** X24.  A target without an anti-collision response is never
    reported: in the iteration that senses it the resolver raises, the
    handler logs the attribute error, no callback is invoked, the
    identity held stays and the thread stays in the loop. *)
Theorem target_without_identifier_is_not_reported w t drv h target :
  nth_error (threads w) t = Some InLoop ->
  running (self w) = true ->
  clf (self w) = Some h ->
  sense drv h = Returns (Some target) ->
  sdd_res target = None ->
  let w' := _reader_loop_step t drv w in
  w' = add_events
         [Sensed h;
          Logged ERROR ("Error reading from NFC reader: "
                        ++ "'NoneType' object has no attribute 'hex'")] w /\
  nth_error (threads w') t = Some InLoop /\
  calls (trace w') = calls (trace w) /\
  current_uid (self w') = current_uid (self w).
Proof.
  intros Hth Hrun Hclf Hsense Hsdd w'. unfold w'.
  destruct (@resolver_raises drv (Some h) target Hsdd) as (Hres & Hevs).
  rewrite (@step_in_loop C t w drv Hth Hrun).
  rewrite (@body_resolver_raises C w drv h target _ Hclf Hsense Hres).
  unfold sensing. rewrite Hevs. simpl.
  rewrite calls_app. simpl. rewrite app_nil_r. auto.
Qed.

End Extras.

(** * The further properties at sample inputs *)

Section MoreWitnesses.

Import Sample.

Lemma connect_tells_whether_open_witness :
  exists h,
    ContactlessFrontend card_present (port (self fresh)) = Returns h /\
    clf (self (fst (connect card_present fresh))) = Some h.
Proof.
  apply (proj1 (proj2 (connect_tells_whether_open fresh card_present))).
  reflexivity.
Defined.

Lemma start_is_idempotent_witness :
  threads (fst (start fresh)) = [AtEntry] /\
  reader_thread (self (fst (start fresh))) = Some 0.
Proof.
  apply (proj1 (proj2 (proj2 (start_is_idempotent fresh)))).
  reflexivity.
Defined.

Lemma stop_before_start_only_logs_witness :
  trace (fst (stop [(0, card_present)] fresh))
  = [Logged INFO "NFC reader stopped"].
Proof.
  rewrite (@stop_before_start_only_logs nat fresh [(0, card_present)]
             eq_refl eq_refl).
  reflexivity.
Defined.

Lemma start_then_open_connects_witness :
  is_connected (_reader_loop_step 0 card_present (fst (start fresh))) = true.
Proof.
  apply (@start_then_open_connects nat fresh card_present eq_refl eq_refl).
Defined.

(** The flag cleared by [stop] while thread 0 was in an iteration. *)
Lemma cleared_flag_ends_the_thread_witness :
  let w := fst (stop [] (in_loop (Some on_card) (Some on_removed) None)) in
  nth_error (threads (_reader_loop_step 0 card_present w)) 0 = Some Exited.
Proof.
  apply (@cleared_flag_ends_the_thread nat
           (fst (stop [] (in_loop (Some on_card) (Some on_removed) None)))
           0 card_present eq_refl eq_refl).
Defined.

Lemma null_handle_is_logged_each_iteration_witness :
  let w := fst (start (fst (stop [] (in_loop (Some on_card) (Some on_removed) None)))) in
  calls (trace (_reader_loop_step 0 card_present w)) = [] /\
  threads (_reader_loop_step 0 card_present w) = [InLoop; AtEntry].
Proof.
  cbv zeta.
  rewrite (@null_handle_is_logged_each_iteration nat
             (fst (start (fst (stop [] (in_loop (Some on_card) (Some on_removed)
                                          None)))))
             0 card_present eq_refl eq_refl eq_refl).
  split; reflexivity.
Defined.

Lemma sense_error_is_not_fatal_witness :
  let w := in_loop (Some on_card) (Some on_removed) (Some "X1") in
  nth_error (threads (_reader_loop_step 0 field_error w)) 0 = Some InLoop /\
  current_uid (self (_reader_loop_step 0 field_error w)) = Some "X1".
Proof.
  destruct (@sense_error_is_not_fatal nat
              (in_loop (Some on_card) (Some on_removed) (Some "X1"))
              0 field_error reader
              (mkExn "OSError" "[Errno 5] Input/output error")
              eq_refl eq_refl eq_refl eq_refl)
    as (_ & Hth & _ & Hcur).
  split; [exact Hth | exact Hcur].
Defined.

Lemma failing_removal_callback_is_retried_witness :
  removals
    (trace (polling 0 [field_empty; field_empty; field_empty]
              (in_loop (Some on_card) (Some on_removed_failing) (Some "X1"))))
  = 3.
Proof.
  apply (@failing_removal_callback_is_retried nat 0 reader "X1" on_removed_failing
           [field_empty; field_empty; field_empty]
           (in_loop (Some on_card) (Some on_removed_failing) (Some "X1"))
           eq_refl eq_refl eq_refl eq_refl eq_refl).
  - intros c. eexists. reflexivity.
  - repeat constructor.
Defined.

Lemma arrival_is_recorded_without_callback_witness :
  current_uid (self (fst (_reader_loop_body card_present (in_loop None None None))))
  = Some "04A1B2C3".
Proof.
  apply (@arrival_is_recorded_without_callback nat (in_loop None None None)
           card_present reader card "04A1B2C3" eq_refl eq_refl eq_refl);
    try reflexivity; discriminate.
Defined.

Lemma removal_is_recorded_without_callback_witness :
  current_uid
    (self (fst (_reader_loop_body field_empty (in_loop None None (Some "X1")))))
  = None.
Proof.
  apply (@removal_is_recorded_without_callback nat (in_loop None None (Some "X1"))
           field_empty reader "X1" eq_refl eq_refl eq_refl eq_refl).
Defined.

(** The card 04A1B2C3 is held and the card 045F6E7D is sensed. *)
Lemma token_swap_fires_arrival_only_witness :
  let w := in_loop (Some on_card) (Some on_removed) (Some "04A1B2C3") in
  calls (trace (fst (_reader_loop_body other_card_present w)))
  = [Arrived "045F6E7D"].
Proof.
  apply (@token_swap_fires_arrival_only nat
           (in_loop (Some on_card) (Some on_removed) (Some "04A1B2C3"))
           other_card_present reader other_card "045F6E7D" "04A1B2C3" on_card
           eq_refl eq_refl eq_refl);
    try reflexivity; discriminate.
Defined.

Lemma resolver_sends_at_most_one_command_witness :
  transmissions
    (resolver_events (phone_present (Returns answer)) (Some reader) handset)
  = [select_aid_apdu].
Proof.
  apply (proj2 (resolver_sends_at_most_one_command
                  (phone_present (Returns answer)) (Some reader) handset)).
  split; [now exists [x08; x5e; x11; x3a]|].
  exists (app (Returns answer)). split; reflexivity.
Defined.

Lemma identity_is_hex_of_uid_bytes_witness :
  exists bs,
    snd (_extract_uid (phone_present (Returns answer)) (Some reader) handset [])
    = Returns (upper (hex bs)) /\
    String.length (upper (hex bs)) = 2 * List.length bs.
Proof.
  destruct (@identity_is_hex_of_uid_bytes
              (phone_present (Returns answer)) (Some reader) handset
              [x08; x5e; x11; x3a] [] eq_refl)
    as (bs & Hres & _ & Hlen & _).
  exists bs. split; [exact Hres | exact Hlen].
Defined.

(** The application answers with the single byte 90. *)
Lemma short_response_falls_back_witness :
  snd (_extract_uid (phone_present (Returns [x90])) (Some reader) handset [])
  = Returns "085E113A".
Proof.
  apply (@short_response_falls_back
           (phone_present (Returns [x90])) (Some reader) handset
           [x08; x5e; x11; x3a] (app (Returns [x90])) [x90] []
           eq_refl eq_refl eq_refl eq_refl).
  simpl. lia.
Defined.

Lemma run_opens_at_most_once_witness :
  opens (trace (polling 0 [card_present; field_error; card_present]
                  (in_loop (Some on_card) (Some on_removed) None)))
  = 0.
Proof.
  apply (proj2 (run_opens_at_most_once 0
                  [card_present; field_error; card_present]
                  (in_loop (Some on_card) (Some on_removed) None))).
  discriminate.
Defined.

Lemma stale_thread_survives_restart_witness :
  let w := polling 0 [card_present] (fst (start fresh)) in
  threads (fst (start (fst (stop [] w)))) = [InLoop; AtEntry] /\
  running (self (fst (start (fst (stop [] w))))) = true.
Proof.
  destruct (@stale_thread_survives_restart nat
              (polling 0 [card_present] (fst (start fresh))) 0 eq_refl)
    as (_ & _ & Hrun & _).
  split; [reflexivity | exact Hrun].
Defined.

(** [stop] while the card is held, then [start] with the card still in
    the field. *)
Lemma stop_keeps_the_identity_witness :
  let w := polling 0 [card_present] (in_loop (Some on_card) (Some on_removed) None) in
  let w1 := fst (stop [] w) in
  current_uid (self w1) = Some "04A1B2C3" /\
  arrivals (trace (polling 1 [card_present; card_present; card_present]
                     (fst (start w1))))
  = ["04A1B2C3"].
Proof.
  destruct (@stop_keeps_the_identity nat
              (polling 0 [card_present]
                 (in_loop (Some on_card) (Some on_removed) None))
              [] "04A1B2C3" eq_refl)
    as (Hcur & _ & Hquiet).
  split; [exact Hcur|].
  apply (Hquiet card_present reader [card_present; card_present] eq_refl eq_refl).
  repeat constructor.
Defined.

Lemma reported_identities_are_hex_text_witness :
  uppercase_hex "04A1B2C3" = true /\ Nat.even (String.length "04A1B2C3") = true.
Proof.
  apply (@reported_identities_are_hex_text nat
           [Start; Step 0 card_present; Step 0 card_present]
           true "usb" (Some on_card) (Some on_removed) 0 "04A1B2C3").
  left. simpl. now left.
Defined.

(** A card comes and goes, the reader is stopped, its thread returns
    during the wait, the reader is started again and two cards come. *)
Lemma callbacks_report_edges_only_witness :
  edge_triggered
    (calls (trace (history
                     [Start; Step 0 card_present; Step 0 card_present;
                      Step 0 field_empty; Step 0 field_empty;
                      Stop [(0, field_empty)];
                      Start; Step 1 card_present; Step 1 card_present;
                      Step 1 other_card_present]
                     (constructed true "usb" (Some on_card) (Some on_removed) 0))))
  = true.
Proof.
  apply (@callbacks_report_edges_only nat).
  - intros c. reflexivity.
  - reflexivity.
Defined.

Lemma removals_never_outnumber_arrivals_witness :
  let w := history
             [Start; Step 0 card_present; Step 0 card_present;
              Step 0 field_empty; Step 0 field_empty; Stop [(0, field_empty)];
              Start; Step 1 card_present; Step 1 field_empty]
             (constructed true "usb" (Some on_card) (Some on_removed) 0) in
  removals (trace w) <= List.length (arrivals (trace w)).
Proof.
  apply (@removals_never_outnumber_arrivals nat).
  - intros c. reflexivity.
  - reflexivity.
Defined.

Lemma target_without_identifier_is_not_reported_witness :
  let w := in_loop (Some on_card) (Some on_removed) (Some "X1") in
  calls (trace (_reader_loop_step 0 topaz_present w)) = [] /\
  current_uid (self (_reader_loop_step 0 topaz_present w)) = Some "X1".
Proof.
  destruct (@target_without_identifier_is_not_reported nat
              (in_loop (Some on_card) (Some on_removed) (Some "X1"))
              0 topaz_present reader topaz
              eq_refl eq_refl eq_refl eq_refl eq_refl)
    as (_ & _ & Hcalls & Hcur).
  split; [exact Hcalls | exact Hcur].
Defined.

End MoreWitnesses.
